(** * The elvish code-area widget: a shallow embedding and its properties

    The development follows three source files of the repository:

    - [cli/el/codearea/codearea.go]: the code-area widget, whose
      [Handle] method is a two-state (normal / pasting) key-event machine
      over a cursor-aware byte buffer;
    - [cli/clitypes/widget.go]: the overlay-handler wrapper for widgets;
    - [cli/app_spec.go]: the [Highlighter] and [Prompt] interfaces.

    Go strings are immutable byte sequences, so they are [list byte] here.
    Go's [int] and [rune] are [Z]; conversions that truncate in Go
    ([byte(r)], [uint32(r)], shifts on [int32]) are written out with [mod].
    A Go panic (slice bounds out of range) is [None]. *)

From Stdlib Require Import String Ascii.
From Stdlib Require Import Strings.Byte.
From Stdlib Require Import ZArith List Bool Lia Permutation.
Import ListNotations.

Local Open Scope Z_scope.

(** ** Bytes and Go strings *)

Definition bytes : Type := list byte.

Definition Z_of_byte (b : byte) : Z := Z.of_N (Byte.to_N b).

(** [byte(x)] in Go: the low eight bits of an integer. *)
Definition byte_of_Z (x : Z) : byte :=
  match Byte.of_N (Z.to_N (x mod 256)) with
  | Some b => b
  | None => x00
  end.

(** A Go string literal; the file is UTF-8, and so is the literal. *)
Definition str (s : string) : bytes := list_byte_of_string s.

(** [len(s)] *)
Definition len (s : bytes) : Z := Z.of_nat (length s).

(** [s[i]], for an index already known to be in range. *)
Definition index (s : bytes) (i : Z) : byte := nth (Z.to_nat i) s x00.

(** [s[:n]] and [s[n:]]; they panic out of range. *)
Definition slice_to (s : bytes) (n : Z) : option bytes :=
  if (0 <=? n) && (n <=? len s) then Some (firstn (Z.to_nat n) s) else None.

Definition slice_from (s : bytes) (n : Z) : option bytes :=
  if (0 <=? n) && (n <=? len s) then Some (skipn (Z.to_nat n) s) else None.

(** [s[a:b]] for [0 <= a <= b <= len(s)], as [DecodeLastRuneInString] uses it. *)
Definition slice (s : bytes) (a b : Z) : bytes :=
  firstn (Z.to_nat (b - a)) (skipn (Z.to_nat a) s).

Definition bytes_eq_dec : forall x y : bytes, {x = y} + {x <> y} :=
  list_eq_dec Byte.byte_eq_dec.

Definition bytes_eqb (x y : bytes) : bool :=
  if bytes_eq_dec x y then true else false.

(** [strings.HasSuffix(s, suffix)]:
    [len(s) >= len(suffix) && s[len(s)-len(suffix):] == suffix]. *)
Definition HasSuffix (s suffix : bytes) : bool :=
  (len suffix <=? len s) &&
  bytes_eqb (skipn (Z.to_nat (len s - len suffix)) s) suffix.

(** ** Go's [unicode/utf8], as far as the widget calls it *)

Module utf8.

Definition RuneError : Z := 0xFFFD.
Definition RuneSelf : Z := 0x80.
Definition MaxRune : Z := 0x10FFFF.
Definition UTFMax : Z := 4.

Definition surrogateMin : Z := 0xD800.
Definition surrogateMax : Z := 0xDFFF.

Definition tx : Z := 0x80.
Definition t2 : Z := 0xC0.
Definition t3 : Z := 0xE0.
Definition t4 : Z := 0xF0.

Definition maskx : Z := 0x3F.
Definition mask2 : Z := 0x1F.
Definition mask3 : Z := 0x0F.
Definition mask4 : Z := 0x07.

Definition rune1Max : Z := 0x7F.
Definition rune2Max : Z := 0x7FF.
Definition rune3Max : Z := 0xFFFF.

Definition locb : Z := 0x80.
Definition hicb : Z := 0xBF.

(** Entries of the [first] table: size in the low three bits, index into
    [acceptRanges] in the high four. *)
Definition xx : Z := 0xF1.
Definition as_ : Z := 0xF0.
Definition s1 : Z := 0x02.
Definition s2 : Z := 0x13.
Definition s3 : Z := 0x03.
Definition s4 : Z := 0x23.
Definition s5 : Z := 0x34.
Definition s6 : Z := 0x04.
Definition s7 : Z := 0x44.

(** The 256-entry table [first], by its runs of equal entries. *)
Definition first (b : Z) : Z :=
  if b <=? 0x7F then as_
  else if b <=? 0xC1 then xx
  else if b <=? 0xDF then s1
  else if b =? 0xE0 then s2
  else if b <=? 0xEC then s3
  else if b =? 0xED then s4
  else if b <=? 0xEF then s3
  else if b =? 0xF0 then s5
  else if b <=? 0xF3 then s6
  else if b =? 0xF4 then s7
  else xx.

(** [acceptRanges[i]]: the range allowed for the second byte. *)
Definition acceptRanges (i : Z) : Z * Z :=
  if i =? 0 then (locb, hicb)
  else if i =? 1 then (0xA0, hicb)
  else if i =? 2 then (locb, 0x9F)
  else if i =? 3 then (0x90, hicb)
  else if i =? 4 then (locb, 0x8F)
  else (0, 0).

Definition uint32 (r : Z) : Z := r mod 2 ^ 32.

(** A value reinterpreted as [int32]. *)
Definition int32 (x : Z) : Z := (x + 2 ^ 31) mod 2 ^ 32 - 2 ^ 31.

(** [RuneStart(b)]: [b&0xC0 != 0x80]. *)
Definition RuneStart (b : byte) : bool :=
  negb (Z.land (Z_of_byte b) 0xC0 =? 0x80).

(** [EncodeRune], returning the bytes written. An invalid rune (negative,
    above [MaxRune], or a surrogate) is encoded as [RuneError]. *)
Definition encode3 (r : Z) : bytes :=
  [ byte_of_Z (Z.lor t3 (Z.shiftr r 12 mod 256));
    byte_of_Z (Z.lor tx (Z.land (Z.shiftr r 6 mod 256) maskx));
    byte_of_Z (Z.lor tx (Z.land (r mod 256) maskx)) ].

Definition EncodeRune (r : Z) : bytes :=
  let i := uint32 r in
  if i <=? rune1Max then [ byte_of_Z r ]
  else if i <=? rune2Max then
    [ byte_of_Z (Z.lor t2 (Z.shiftr r 6 mod 256));
      byte_of_Z (Z.lor tx (Z.land (r mod 256) maskx)) ]
  else if (MaxRune <? i) || ((surrogateMin <=? i) && (i <=? surrogateMax)) then
    encode3 RuneError
  else if i <=? rune3Max then encode3 r
  else
    [ byte_of_Z (Z.lor t4 (Z.shiftr r 18 mod 256));
      byte_of_Z (Z.lor tx (Z.land (Z.shiftr r 12 mod 256) maskx));
      byte_of_Z (Z.lor tx (Z.land (Z.shiftr r 6 mod 256) maskx));
      byte_of_Z (Z.lor tx (Z.land (r mod 256) maskx)) ].

(** [DecodeRuneInString]. *)
Definition DecodeRuneInString (s : bytes) : Z * Z :=
  let n := len s in
  if n <? 1 then (RuneError, 0)
  else
    let s0 := Z_of_byte (index s 0) in
    let x := first s0 in
    if as_ <=? x then
      let mask := Z.shiftr (int32 (Z.shiftl x 31)) 31 in
      (Z.lor (Z.land s0 (Z.lnot mask)) (Z.land RuneError mask), 1)
    else
      let sz := Z.land x 7 in
      let accept := acceptRanges (Z.shiftr x 4) in
      if n <? sz then (RuneError, 1)
      else
        let c1 := Z_of_byte (index s 1) in
        if (c1 <? fst accept) || (snd accept <? c1) then (RuneError, 1)
        else if sz <=? 2 then
          (Z.lor (Z.shiftl (Z.land s0 mask2) 6) (Z.land c1 maskx), 2)
        else
          let c2 := Z_of_byte (index s 2) in
          if (c2 <? locb) || (hicb <? c2) then (RuneError, 1)
          else if sz <=? 3 then
            (Z.lor (Z.lor (Z.shiftl (Z.land s0 mask3) 12)
                          (Z.shiftl (Z.land c1 maskx) 6))
                   (Z.land c2 maskx), 3)
          else
            let c3 := Z_of_byte (index s 3) in
            if (c3 <? locb) || (hicb <? c3) then (RuneError, 1)
            else
              (Z.lor (Z.lor (Z.lor (Z.shiftl (Z.land s0 mask4) 18)
                                   (Z.shiftl (Z.land c1 maskx) 12))
                            (Z.shiftl (Z.land c2 maskx) 6))
                     (Z.land c3 maskx), 4).

(** The backwards scan of [DecodeLastRuneInString]:
    [for start--; start >= lim; start-- { if RuneStart(s[start]) { break } }],
    entered after the first [start--]. It runs at most [UTFMax - 1] times. *)
Fixpoint scan_back (fuel : nat) (s : bytes) (start lim : Z) : Z :=
  match fuel with
  | O => start
  | S fuel' =>
      if lim <=? start then
        if RuneStart (index s start) then start
        else scan_back fuel' s (start - 1) lim
      else start
  end.

(** [DecodeLastRuneInString]. *)
Definition DecodeLastRuneInString (s : bytes) : Z * Z :=
  let end_ := len s in
  if end_ =? 0 then (RuneError, 0)
  else
    let start := end_ - 1 in
    let r := Z_of_byte (index s start) in
    if r <? RuneSelf then (r, 1)
    else
      let lim := end_ - UTFMax in
      let lim := if lim <? 0 then 0 else lim in
      let start := scan_back (Z.to_nat UTFMax) s (start - 1) lim in
      let start := if start <? 0 then 0 else start in
      let '(r, size) := DecodeRuneInString (slice s start end_) in
      if negb (start + size =? end_) then (RuneError, 1)
      else (r, size).

End utf8.

(** ** Go's [unicode.IsGraphic] *)

Module unicode.

Definition MaxLatin1 : Z := 0xFF.

(** [properties[b]&pg != 0] for the Latin-1 table: the graphic characters
    are U+0020..U+007E and U+00A0..U+00FF without the soft hyphen U+00AD. *)
Definition latin1_graphic (b : Z) : bool :=
  ((0x20 <=? b) && (b <=? 0x7E)) ||
  ((0xA0 <=? b) && (b <=? 0xFF) && negb (b =? 0xAD)).

Section IsGraphic.

(** [In(r, GraphicRanges...)]: membership in the range tables of the
    categories L, M, N, P, S and Zs, which are data of the Go library. *)
Variable inGraphicRanges : Z -> bool.

Definition IsGraphic (r : Z) : bool :=
  if utf8.uint32 r <=? MaxLatin1 then latin1_graphic (r mod 256)
  else inGraphicRanges r.

End IsGraphic.

End unicode.

(** ** Keys and terminal events *)

Module ui.

(** [ui.Key]: a rune (negative for the named function keys) and a
    modifier bit set. *)
Record Key : Type := mkKey { Rune : Z; Mod : Z }.

(** Modelled from the spec: [ui.K] belongs to package [edit/ui], which is
    not among the sources followed here; [K(r)] is the key with rune [r]
    and no modifier. *)
Definition K (r : Z) : Key := mkKey r 0.

Definition Key_eqb (a b : Key) : bool :=
  (Rune a =? Rune b) && (Mod a =? Mod b).

End ui.

Module term.

(** [term.Event] is an interface; [Handle] distinguishes [PasteSetting]
    and [KeyEvent] from every other dynamic type. *)
Inductive Event : Type :=
| KeyEvent (k : ui.Key)
| PasteSetting (start : bool)
| OtherEvent.

End term.

(** ** The code-area widget ([cli/el/codearea/codearea.go]) *)

Module codearea.

(** [CodeBuffer]: the text and the cursor position, a byte offset. *)
Record CodeBuffer : Type := mkCodeBuffer { Content : bytes; Dot : Z }.

(** The zero value [CodeBuffer{}]. *)
Definition CodeBuffer_zero : CodeBuffer := mkCodeBuffer [] 0.

(** [==] on [CodeBuffer]: both fields equal. *)
Definition CodeBuffer_eqb (a b : CodeBuffer) : bool :=
  bytes_eqb (Content a) (Content b) && (Dot a =? Dot b).

(** Modelled from the spec: [CodeBuffer.InsertAtDot] belongs to the
    package's state file, which is not among the sources followed here.
    Inserting [t] at dot [d] in [(c, d)] yields
    [(c[:d] + t + c[d:], d + len(t))]; the two slices panic when [d] is not
    within the content. *)
Definition InsertAtDot (text : bytes) (c : CodeBuffer) : option CodeBuffer :=
  match slice_to (Content c) (Dot c), slice_from (Content c) (Dot c) with
  | Some pre, Some post =>
      Some (mkCodeBuffer (pre ++ text ++ post) (Dot c + len text))
  | _, _ => None
  end.

(** Calls of the widget's named operations, in the order they happen. The
    trace is ghost state: no operation reads it. *)
Inductive Op : Type :=
| OpResetInserts
| OpInsertAtDot (text : bytes)
| OpOnSubmit (code : bytes).

Section Widget.

(** The fields of [State] besides the code buffer. *)
Variable StateRest : Type.

(** [parse.Quote], declared in another package of the repository. *)
Variable Quote : bytes -> bytes.

(** The rune of [ui.Backspace], declared in another package. *)
Variable Backspace : Z.

(** The range tables behind [unicode.IsGraphic] above Latin-1. *)
Variable inGraphicRanges : Z -> bool.

Record State : Type := mkState { Buffer : CodeBuffer; Rest : StateRest }.

(** An overlay handler reaches the widget through its public state only. *)
Definition Handler : Type := term.Event -> State -> option (bool * State).

(** [el.DummyHandler]: handles nothing. *)
Definition DummyHandler : Handler := fun _ s => Some (false, s).

(** [Config], without the fields that only [Render] reads. A callback is
    given by what it answers: the pairs the abbreviation enumerator passes
    to its visitor, in order, and the answer of the paste-quoting predicate.
    [None] is Go's [nil]. The submit callback acts outside the widget; its
    calls are recorded in the trace. *)
Record Config : Type := mkConfig {
  OverlayHandler : option Handler;
  Abbreviations : option (list (bytes * bytes));
  QuotePaste : option bool
}.

Definition dummyAbbreviations : list (bytes * bytes) := [].
Definition dummyQuotePaste : bool := false.

(** [init]: every [nil] member gets its default. *)
Definition init (cfg : Config) : Config :=
  mkConfig
    (Some match OverlayHandler cfg with Some h => h | None => DummyHandler end)
    (Some match Abbreviations cfg with Some a => a | None => dummyAbbreviations end)
    (Some match QuotePaste cfg with Some q => q | None => dummyQuotePaste end).

(** The answers of the callbacks once [init] has run. *)
Definition quotes (cfg : Config) : bool :=
  match QuotePaste cfg with Some q => q | None => dummyQuotePaste end.

Definition abbreviations (cfg : Config) : list (bytes * bytes) :=
  match Abbreviations cfg with Some a => a | None => dummyAbbreviations end.

Definition overlay_of (cfg : Config) : Handler :=
  match OverlayHandler cfg with Some h => h | None => DummyHandler end.

(** The mutable fields of [widget]. The mutex is left out: [Handle] runs on
    one thread. *)
Record widget : Type := mkWidget {
  state : State;
  inserts : bytes;
  lastCodeBuffer : CodeBuffer;
  pasting : bool;
  pasteBuffer : bytes
}.

Record World : Type := mkWorld { self : widget; trace : list Op }.

(** Computations over the widget that may panic. *)
Definition M (A : Type) : Type := World -> option (A * World).

Definition ret {A} (a : A) : M A := fun w => Some (a, w).

Definition bind {A B} (m : M A) (k : A -> M B) : M B :=
  fun w => match m w with
           | Some (a, w') => k a w'
           | None => None
           end.

Definition panic {A} : M A := fun _ => None.

Notation "x <- m ;; k" := (bind m (fun x => k))
  (at level 61, m at next level, right associativity).
Notation "m ;; k" := (bind m (fun _ => k))
  (at level 61, right associativity).

Definition get : M widget := fun w => Some (self w, w).

Definition modify (f : widget -> widget) : M unit :=
  fun w => Some (tt, mkWorld (f (self w)) (trace w)).

Definition emit (o : Op) : M unit :=
  fun w => Some (tt, mkWorld (self w) (trace w ++ [o])).

Definition set_state (s : State) (w : widget) : widget :=
  mkWidget s (inserts w) (lastCodeBuffer w) (pasting w) (pasteBuffer w).

Definition set_buffer (c : CodeBuffer) (w : widget) : widget :=
  set_state (mkState c (Rest (state w))) w.

Definition set_inserts (i : bytes) (w : widget) : widget :=
  mkWidget (state w) i (lastCodeBuffer w) (pasting w) (pasteBuffer w).

Definition set_lastCodeBuffer (c : CodeBuffer) (w : widget) : widget :=
  mkWidget (state w) (inserts w) c (pasting w) (pasteBuffer w).

Definition set_pasting (b : bool) (w : widget) : widget :=
  mkWidget (state w) (inserts w) (lastCodeBuffer w) b (pasteBuffer w).

Definition set_pasteBuffer (p : bytes) (w : widget) : widget :=
  mkWidget (state w) (inserts w) (lastCodeBuffer w) (pasting w) p.

(** [NewWithState]; [New] is the same with the zero state. *)
Definition NewWithState (st : State) : widget :=
  mkWidget st [] CodeBuffer_zero false [].

(** A nil callback panics when called; after [init] none is nil. *)
Definition call {A} (f : option A) : M A :=
  match f with Some a => ret a | None => panic end.

(** [Submit]: [w.OnSubmit(w.State.CodeBuffer.Content)]. *)
Definition Submit : M unit :=
  w <- get ;;
  emit (OpOnSubmit (Content (Buffer (state w)))).

(** [MutateCodeAreaState]. *)
Definition MutateCodeAreaState (f : State -> option State) : M unit :=
  w <- get ;;
  match f (state w) with
  | Some s => modify (set_state s)
  | None => panic
  end.

Definition resetInserts : M unit :=
  emit OpResetInserts ;;
  modify (set_inserts []) ;;
  modify (set_lastCodeBuffer CodeBuffer_zero).

(** An assignment through [&w.State.CodeBuffer], made under the lock. *)
Definition update_buffer (f : CodeBuffer -> option CodeBuffer) : M unit :=
  w <- get ;;
  match f (Buffer (state w)) with
  | Some c => modify (set_buffer c)
  | None => panic
  end.

(** The widget after [resetInserts]. *)
Definition reset (w : widget) : widget :=
  set_lastCodeBuffer CodeBuffer_zero (set_inserts [] w).

(** The widget after a completed paste of [text] before [post]. *)
Definition pasted (w : widget) (pre text post : bytes) : widget :=
  mkWidget
    (mkState (mkCodeBuffer (pre ++ text ++ post) (len pre + len text))
             (Rest (state w)))
    [] CodeBuffer_zero false [].

(** The widget after a key that typed [s] after [pre] and expanded nothing:
    the tracked text is [ins] and the buffer has just been observed. *)
Definition typed (w : widget) (pre s post ins : bytes) : widget :=
  let c := mkCodeBuffer (pre ++ s ++ post) (len pre + len s) in
  mkWidget (mkState c (Rest (state w))) ins c (pasting w) (pasteBuffer w).

(** The widget after an abbreviation that ended at the dot, after [pre'],
    was replaced by [full]. *)
Definition expanded (w : widget) (pre' full post : bytes) : widget :=
  mkWidget
    (mkState (mkCodeBuffer (pre' ++ full ++ post) (len pre' + len full))
             (Rest (state w)))
    [] CodeBuffer_zero (pasting w) (pasteBuffer w).

(** [s.CodeBuffer.InsertAtDot(text)] on the state. *)
Definition insert_in_state (text : bytes) (s : State) : option State :=
  match InsertAtDot text (Buffer s) with
  | Some c => Some (mkState c (Rest s))
  | None => None
  end.

(** [pasteBuffer.WriteRune(r)] appends the encoding of [r]: one byte below
    [RuneSelf], [EncodeRune] otherwise. The widget calls it with
    non-negative runes only. *)
Definition WriteRune (r : Z) (buf : bytes) : bytes :=
  if utf8.uint32 r <? utf8.RuneSelf then buf ++ [byte_of_Z r]
  else buf ++ utf8.EncodeRune r.

Definition handlePasteSetting (cfg : Config) (start : bool) : M bool :=
  resetInserts ;;
  (if start then modify (set_pasting true)
   else
     w <- get ;;
     let text := pasteBuffer w in
     q <- call (QuotePaste cfg) ;;
     let text := if q then Quote text else text in
     emit (OpInsertAtDot text) ;;
     MutateCodeAreaState (insert_in_state text) ;;
     modify (set_pasting false) ;;
     modify (set_pasteBuffer [])) ;;
  ret true.

(** The backspace mutation: remove the last rune before the dot. *)
Definition delete_before_dot (s : State) : option State :=
  let c := Buffer s in
  match slice_to (Content c) (Dot c) with
  | None => None
  | Some before =>
      let chop := snd (utf8.DecodeLastRuneInString before) in
      match slice_to (Content c) (Dot c - chop),
            slice_from (Content c) (Dot c) with
      | Some pre, Some post =>
          Some (mkState (mkCodeBuffer (pre ++ post) (Dot c - chop)) (Rest s))
      | _, _ => None
      end
  end.

(** The visitor passed to [w.Abbreviations]: it keeps in [(abbr, full)] the
    first longest abbreviation that ends [inserts]. *)
Definition visit (ins : bytes) (acc p : bytes * bytes) : bytes * bytes :=
  if HasSuffix ins (fst p) && (len (fst acc) <? len (fst p)) then p else acc.

Definition pick (abbrs : list (bytes * bytes)) (ins : bytes) : bytes * bytes :=
  fold_left (visit ins) abbrs ([], []).

(** The replacement of the abbreviation that ends at the dot. *)
Definition expand (abbr full : bytes) (c : CodeBuffer) : option CodeBuffer :=
  match slice_to (Content c) (Dot c - len abbr),
        slice_from (Content c) (Dot c) with
  | Some pre, Some post =>
      Some (mkCodeBuffer (pre ++ full ++ post) (Dot c - len abbr + len full))
  | _, _ => None
  end.

Definition handleKeyEvent (cfg : Config) (key : ui.Key) : M bool :=
  let isFuncKey := negb (ui.Mod key =? 0) || (ui.Rune key <? 0) in
  w <- get ;;
  if pasting w then
    (if isFuncKey then ret tt
     else modify (set_pasteBuffer (WriteRune (ui.Rune key) (pasteBuffer w)))) ;;
    ret true
  else if ui.Key_eqb key (ui.K 10) then
    resetInserts ;;
    Submit ;;
    ret true
  else if ui.Key_eqb key (ui.K Backspace) then
    resetInserts ;;
    MutateCodeAreaState delete_before_dot ;;
    ret true
  else if isFuncKey || negb (unicode.IsGraphic inGraphicRanges (ui.Rune key)) then
    resetInserts ;;
    ret false
  else
    (if negb (CodeBuffer_eqb (lastCodeBuffer w) (Buffer (state w)))
     then resetInserts else ret tt) ;;
    let s := utf8.EncodeRune (ui.Rune key) in
    emit (OpInsertAtDot s) ;;
    update_buffer (InsertAtDot s) ;;
    w <- get ;;
    modify (set_inserts (inserts w ++ s)) ;;
    modify (set_lastCodeBuffer (Buffer (state w))) ;;
    abbrs <- call (Abbreviations cfg) ;;
    let '(abbr, full) := pick abbrs (inserts w ++ s) in
    (if 0 <? len abbr then
       update_buffer (expand abbr full) ;;
       resetInserts
     else ret tt) ;;
    ret true.

(** The overlay handler, run on the public state. *)
Definition run_overlay (h : Handler) (event : term.Event) : M bool :=
  w <- get ;;
  match h event (state w) with
  | Some (b, s) => modify (set_state s) ;; ret b
  | None => panic
  end.

(** The type switch of [Handle], reached when the overlay declines. *)
Definition dispatch (cfg : Config) (event : term.Event) : M bool :=
  match event with
  | term.PasteSetting start => handlePasteSetting cfg start
  | term.KeyEvent key => handleKeyEvent cfg key
  | term.OtherEvent => ret false
  end.

Definition Handle (cfg : Config) (event : term.Event) : M bool :=
  let cfg := init cfg in
  h <- call (OverlayHandler cfg) ;;
  handled <- run_overlay h event ;;
  if handled then ret true else dispatch cfg event.

(** A sequence of events, each passed to [Handle]. *)
Fixpoint HandleAll (cfg : Config) (events : list term.Event) : M unit :=
  match events with
  | [] => ret tt
  | e :: rest => Handle cfg e ;; HandleAll cfg rest
  end.

(** The same sequence seen by the widget's own logic: what [Handle] does
    on events that the overlay declines without touching the state. *)
Fixpoint dispatchAll (cfg : Config) (events : list term.Event) : M unit :=
  match events with
  | [] => ret tt
  | e :: rest => dispatch (init cfg) e ;; dispatchAll cfg rest
  end.

End Widget.

(** Unmodified keys, and a bracketed paste of such keys. *)
Definition keys (rs : list Z) : list term.Event :=
  map (fun r => term.KeyEvent (ui.K r)) rs.

Definition paste_events (rs : list Z) : list term.Event :=
  term.PasteSetting true :: keys rs ++ [term.PasteSetting false].

(** The number of [resetInserts] calls and of [InsertAtDot] calls in a trace. *)
Definition count_resets (t : list Op) : nat :=
  List.length
    (filter (fun o => match o with OpResetInserts => true | _ => false end) t).

(** The texts passed to [InsertAtDot], in the order of the calls. *)
Definition insertions (t : list Op) : list bytes :=
  flat_map (fun o => match o with OpInsertAtDot s => [s] | _ => [] end) t.

Arguments mkState {StateRest} _ _.
Arguments Buffer {StateRest} _.
Arguments Rest {StateRest} _.
Arguments mkConfig {StateRest} _ _ _.
Arguments OverlayHandler {StateRest} _.
Arguments Abbreviations {StateRest} _.
Arguments QuotePaste {StateRest} _.
Arguments init {StateRest} _.
Arguments quotes {StateRest} _.
Arguments abbreviations {StateRest} _.
Arguments overlay_of {StateRest} _ _ _.
Arguments mkWidget {StateRest} _ _ _ _ _.
Arguments state {StateRest} _.
Arguments inserts {StateRest} _.
Arguments lastCodeBuffer {StateRest} _.
Arguments pasting {StateRest} _.
Arguments pasteBuffer {StateRest} _.
Arguments mkWorld {StateRest} _ _.
Arguments self {StateRest} _.
Arguments trace {StateRest} _.
Arguments set_state {StateRest} _ _.
Arguments set_buffer {StateRest} _ _.
Arguments set_inserts {StateRest} _ _.
Arguments set_lastCodeBuffer {StateRest} _ _.
Arguments set_pasting {StateRest} _ _.
Arguments set_pasteBuffer {StateRest} _ _.
Arguments NewWithState {StateRest} _.
Arguments reset {StateRest} _.
Arguments pasted {StateRest} _ _ _ _.
Arguments typed {StateRest} _ _ _ _ _.
Arguments expanded {StateRest} _ _ _ _.
Arguments DummyHandler {StateRest} _ _.

End codearea.


(** ** Valid text and the buffer invariant *)

(** A continuation byte, [0x80..0xBF]. *)
Definition cont (b : byte) : bool :=
  (0x80 <=? Z_of_byte b) && (Z_of_byte b <=? 0xBF).

Definition between (lo hi : Z) (b : byte) : bool :=
  (lo <=? Z_of_byte b) && (Z_of_byte b <=? hi).

(** The well-formed UTF-8 byte sequences of one code point (Unicode
    standard, table 3-7): no overlong form, no surrogate, nothing above
    U+10FFFF. *)
Definition valid_char (c : bytes) : bool :=
  match c with
  | [b0] => Z_of_byte b0 <=? 0x7F
  | [b0; b1] => between 0xC2 0xDF b0 && cont b1
  | [b0; b1; b2] =>
      ((between 0xE0 0xE0 b0 && between 0xA0 0xBF b1) ||
       (between 0xE1 0xEC b0 && cont b1) ||
       (between 0xED 0xED b0 && between 0x80 0x9F b1) ||
       (between 0xEE 0xEF b0 && cont b1)) && cont b2
  | [b0; b1; b2; b3] =>
      ((between 0xF0 0xF0 b0 && between 0x90 0xBF b1) ||
       (between 0xF1 0xF3 b0 && cont b1) ||
       (between 0xF4 0xF4 b0 && between 0x80 0x8F b1)) && cont b2 && cont b3
  | _ => false
  end.

(** The same sequences, by their shape: the length, the range of the lead
    byte and the ranges of the bytes that follow. *)
Inductive char_shape : bytes -> Prop :=
| shape1 b0 : Z_of_byte b0 <= 0x7F -> char_shape [b0]
| shape2 b0 b1 :
    0xC2 <= Z_of_byte b0 <= 0xDF -> cont b1 = true -> char_shape [b0; b1]
| shape3 b0 b1 b2 :
    (Z_of_byte b0 = 0xE0 /\ 0xA0 <= Z_of_byte b1 <= 0xBF) \/
    (0xE1 <= Z_of_byte b0 <= 0xEC /\ 0x80 <= Z_of_byte b1 <= 0xBF) \/
    (Z_of_byte b0 = 0xED /\ 0x80 <= Z_of_byte b1 <= 0x9F) \/
    (0xEE <= Z_of_byte b0 <= 0xEF /\ 0x80 <= Z_of_byte b1 <= 0xBF) ->
    cont b2 = true -> char_shape [b0; b1; b2]
| shape4 b0 b1 b2 b3 :
    (Z_of_byte b0 = 0xF0 /\ 0x90 <= Z_of_byte b1 <= 0xBF) \/
    (0xF1 <= Z_of_byte b0 <= 0xF3 /\ 0x80 <= Z_of_byte b1 <= 0xBF) \/
    (Z_of_byte b0 = 0xF4 /\ 0x80 <= Z_of_byte b1 <= 0x8F) ->
    cont b2 = true -> cont b3 = true -> char_shape [b0; b1; b2; b3].

(** Valid text: a concatenation of encoded code points. *)
Definition ValidString (s : bytes) : Prop :=
  exists cs : list bytes, forallb valid_char cs = true /\ s = concat cs.

(** [a] is a trailing substring of [s]. *)
Definition is_suffix (a s : bytes) : Prop := exists q, s = q ++ a.

Module Invariants.
Import codearea.

(** The buffer invariant: the dot is within the content and on a code
    point boundary of valid text. *)
Definition buffer_ok (c : CodeBuffer) : Prop :=
  0 <= Dot c <= len (Content c) /\
  ValidString (firstn (Z.to_nat (Dot c)) (Content c)) /\
  ValidString (skipn (Z.to_nat (Dot c)) (Content c)).

(** Insertion tracking: the tracked text ends what was before the dot when
    the buffer was last observed. *)
Definition track_ok {R} (w : widget R) : Prop :=
  0 <= Dot (lastCodeBuffer w) <= len (Content (lastCodeBuffer w)) /\
  is_suffix (inserts w)
    (firstn (Z.to_nat (Dot (lastCodeBuffer w))) (Content (lastCodeBuffer w))).




Definition overlay_total {R} (h : Handler R) : Prop :=
  forall e s, exists b s', h e s = Some (b, s').


End Invariants.

(** ** Abbreviation selection, in the words of the specification *)

Module Selection.

(** [p] is the pair at position [i] whose abbreviation ends [ins], no
    matching abbreviation is longer, and none of the same length comes
    earlier. [nonempty] restricts the candidates to non-empty
    abbreviations. *)
Definition candidate (nonempty : bool) (ins : bytes) (q : bytes * bytes) : Prop :=
  is_suffix (fst q) ins /\ (nonempty = true -> fst q <> []).

Definition selects (nonempty : bool) (abbrs : list (bytes * bytes))
    (ins : bytes) (p : bytes * bytes) : Prop :=
  exists i,
    nth_error abbrs i = Some p /\
    candidate nonempty ins p /\
    forall j q, nth_error abbrs j = Some q -> candidate nonempty ins q ->
      len (fst q) <= len (fst p) /\
      ((j < i)%nat -> len (fst q) < len (fst p)).

Definition no_candidate (nonempty : bool) (abbrs : list (bytes * bytes))
    (ins : bytes) : Prop :=
  forall q, In q abbrs -> ~ candidate nonempty ins q.

Section Claim.
Import codearea.

Variable R : Type.
Variable Backspace : Z.
Variable inGraphicRanges : Z -> bool.

(** What a graphic key does in the normal state, on a buffer [pre ++ post]
    with the dot after [pre]: the statement of the specification, with the
    candidates either all matching abbreviations ([nonempty = false]) or the
    non-empty ones only. *)
Definition expansion_claim (nonempty : bool) (cfg : Config R) (key : ui.Key)
    (w : widget R) (tr : list Op) (pre post : bytes) : Prop :=
  let s := utf8.EncodeRune (ui.Rune key) in
  let continuing := CodeBuffer_eqb (lastCodeBuffer w) (Buffer (state w)) in
  let ins := (if continuing then inserts w else []) ++ s in
  let tr1 :=
    tr ++ (if continuing then [] else [OpResetInserts]) ++ [OpInsertAtDot s] in
  (forall a f,
     selects nonempty (abbreviations cfg) ins (a, f) ->
     exists pre',
       pre ++ s = pre' ++ a /\
       handleKeyEvent R Backspace inGraphicRanges (init cfg) key (mkWorld w tr) =
         Some (true, mkWorld (expanded w pre' f post) (tr1 ++ [OpResetInserts])))
  /\
  (no_candidate nonempty (abbreviations cfg) ins ->
     handleKeyEvent R Backspace inGraphicRanges (init cfg) key (mkWorld w tr) =
       Some (true, mkWorld (typed w pre s post ins) tr1)).

(** What a bracketed paste of the runes [rs] does in the normal state, on
    a buffer [pre ++ post] with the dot after [pre]: the statement of the
    specification, for a given number of insertion-tracking resets. *)
Definition paste_claim (Quote : bytes -> bytes) (resets : nat)
    (cfg : Config R) (rs : list Z) (w : widget R) (tr : list Op)
    (pre post : bytes) : Prop :=
  let text := concat (map utf8.EncodeRune rs) in
  let text' := if quotes cfg then Quote text else text in
  exists t,
    dispatchAll R Quote Backspace inGraphicRanges cfg (paste_events rs)
      (mkWorld w tr) =
      Some (tt, mkWorld (pasted w pre text' post) (tr ++ t))
    /\ insertions t = [text']
    /\ count_resets t = resets.

End Claim.

End Selection.

(** ** Widgets with an overlay handler ([cli/clitypes/widget.go]) *)

Module clitypes.

Section Widgets.

(** Everything a widget or a handler may read or write, and [ui.Buffer]. *)
Variable World : Type.
Variable Buffer : Type.

(** A method call: it may change the world, and it may panic. *)
Definition Eff (A : Type) : Type := World -> option (A * World).

(** [Renderer], [Handler] and [Widget]: an interface is a class of its
    implementations. *)
Class Renderer (T : Type) : Type :=
  Render : T -> Z -> Z -> Eff Buffer.

Class Handler (T : Type) : Type :=
  Handle : T -> term.Event -> Eff bool.

Class Widget (T : Type) : Type := mkWidgetClass {
  Widget_Renderer :: Renderer T;
  Widget_Handler :: Handler T
}.

Record widgetWithOverlayHandler (W H : Type) : Type := mkOverlay {
  base : W;
  overlay : H
}.

Arguments mkOverlay {W H} _ _.
Arguments base {W H} _.
Arguments overlay {W H} _.

Definition AddOverlayHandler {W H} `{Widget W} `{Handler H} (w : W) (h : H)
  : widgetWithOverlayHandler W H := mkOverlay w h.

#[export] Instance overlay_Render {W H} `{Widget W} `{Handler H}
  : Renderer (widgetWithOverlayHandler W H) :=
  fun w width height => Render (base w) width height.

(** [w.overlay.Handle(event) || w.base.Handle(event)]: the right operand
    is evaluated only when the left one is false. *)
#[export] Instance overlay_Handle {W H} `{Widget W} `{Handler H}
  : Handler (widgetWithOverlayHandler W H) :=
  fun w event world =>
    match Handle (overlay w) event world with
    | Some (true, world') => Some (true, world')
    | Some (false, world') => Handle (base w) event world'
    | None => None
    end.

#[export] Instance overlay_Widget {W H} `{Widget W} `{Handler H}
  : Widget (widgetWithOverlayHandler W H) :=
  mkWidgetClass _ overlay_Render overlay_Handle.

End Widgets.

Arguments mkOverlay {W H} _ _.
Arguments base {W H} _.
Arguments overlay {W H} _.

End clitypes.

(** ** The interfaces of [cli/app_spec.go] *)

Module cli.

Inductive GoType : Type :=
| TString
| TBool
| TStyledText
| TErrors
| TRecvChanStyledText.

(** A method of an interface: its name, parameter types and result types. *)
Record Method : Type := mkMethod {
  mname : string;
  params : list GoType;
  results : list GoType
}.

Definition Interface : Type := list Method.

Definition Highlighter : Interface :=
  [ mkMethod "Get" [TString] [TStyledText; TErrors];
    mkMethod "LateUpdates" [] [TRecvChanStyledText] ].

Definition Prompt : Interface :=
  [ mkMethod "Trigger" [TBool] [];
    mkMethod "Get" [] [TStyledText];
    mkMethod "LateUpdates" [] [TRecvChanStyledText] ].

Definition method_names (i : Interface) : list string := map mname i.

Definition has_method (i : Interface) (n : string) : bool :=
  existsb (fun m => String.eqb (mname m) n) i.

(** The three operations the specification gives every asynchronous
    source. *)
Definition has_async_source_shape (i : Interface) : bool :=
  has_method i "Get" && has_method i "Trigger" && has_method i "LateUpdates".

End cli.

(** ** Concrete configurations *)

Module Examples.
Import codearea.

(** [ui.Backspace] is [0x7f] in the repository's [edit/ui]. *)
Definition Backspace : Z := 0x7F.

(** A quote function that wraps its argument in single quotes. *)
Definition quote1 (s : bytes) : bytes := str "'" ++ s ++ str "'".

(** No graphic rune above Latin-1: enough for the runs below. *)
Definition noRanges (r : Z) : bool := false.

Definition fresh (content : bytes) (dot : Z) : World unit :=
  mkWorld (NewWithState (mkState (mkCodeBuffer content dot) tt)) [].


Definition run (cfg : Config unit) (events : list term.Event) (w : World unit)
  : option (unit * World unit) :=
  HandleAll unit quote1 Backspace noRanges cfg events w.

Definition buffer_of (r : option (unit * World unit)) : option (bytes * Z) :=
  match r with
  | Some (_, w) => let c := Buffer (state (self w)) in Some (Content c, Dot c)
  | None => None
  end.

Definition trace_of (r : option (unit * World unit)) : list Op :=
  match r with Some (_, w) => trace w | None => [] end.

Definition abbr_cfg : Config unit :=
  mkConfig None (Some [(str "ex", str "example"); (str "x", str "exchange")]) None.

Definition empty_abbr_cfg : Config unit :=
  mkConfig None (Some [([], str "X")]) None.


Definition quoting_cfg : Config unit := mkConfig None None (Some true).

Definition plain_cfg : Config unit := mkConfig None None None.

Definition w_fresh : widget unit :=
  NewWithState (mkState (mkCodeBuffer [] 0) tt).

(** The fresh widget after the key [e]. *)
Definition w_after_e : widget unit :=
  typed w_fresh [] (str "e") [] (str "e").

Definition w_cafe : widget unit :=
  NewWithState (mkState (mkCodeBuffer (str "café") 5) tt).

(** In the middle of a paste, after the key [h]. *)
Definition w_pasting : widget unit :=
  set_pasteBuffer (str "h") (set_pasting true w_fresh).

(** Widgets whose world is a counter of the calls of the base's [Handle]. *)
Inductive CountingBase : Type := counting_base.
Inductive GreedyOverlay : Type := greedy_overlay.

#[export] Instance CountingBase_Widget : clitypes.Widget nat unit CountingBase :=
  clitypes.mkWidgetClass nat unit CountingBase
    (fun _ _ _ n => Some (tt, n))
    (fun _ _ n => Some (false, S n)).

#[export] Instance GreedyOverlay_Handler : clitypes.Handler nat GreedyOverlay :=
  fun _ _ n => Some (true, n).

End Examples.


(** ** Further notions for the widget's runs *)

Module Coverage.
Import codearea.

(** The dot is within the content. *)
Definition in_range (c : CodeBuffer) : Prop := 0 <= Dot c <= len (Content c).

(** The content from the dot on. *)
Definition after_dot (c : CodeBuffer) : bytes :=
  skipn (Z.to_nat (Dot c)) (Content c).

(** What the handlers need in order not to panic, whatever the
    configuration: the dot within the content and sound insertion tracking;
    and what they keep of the paste buffer. *)
Definition Safe {R} (w : widget R) : Prop :=
  in_range (Buffer (state w)) /\
  Invariants.track_ok w /\
  ValidString (pasteBuffer w) /\
  (pasting w = false -> pasteBuffer w = []).

(** [isFuncKey] of [handleKeyEvent]. *)
Definition isFuncKey (key : ui.Key) : bool :=
  negb (ui.Mod key =? 0) || (ui.Rune key <? 0).

(** The pasting flag after an event that the widget handles itself. *)
Definition next_pasting (e : term.Event) (p : bool) : bool :=
  match e with
  | term.PasteSetting start => start
  | _ => p
  end.

Fixpoint last_pasting (events : list term.Event) (p : bool) : bool :=
  match events with
  | [] => p
  | e :: rest => last_pasting rest (next_pasting e p)
  end.

(** An unmodified Enter key outside a paste. *)
Definition is_submit (e : term.Event) (p : bool) : bool :=
  match e with
  | term.KeyEvent k => negb p && ui.Key_eqb k (ui.K 10)
  | _ => false
  end.

Fixpoint count_submits (events : list term.Event) (p : bool) : nat :=
  match events with
  | [] => O
  | e :: rest =>
      ((if is_submit e p then 1 else 0) + count_submits rest (next_pasting e p))%nat
  end.

(** The texts passed to the submit callback, in the order of the calls. *)
Definition submissions (t : list Op) : list bytes :=
  flat_map (fun o => match o with OpOnSubmit s => [s] | _ => [] end) t.

(** The text that a paste collects from its keys: function keys give
    nothing, every other key the encoding of its rune. *)
Definition paste_text (ks : list ui.Key) : bytes :=
  flat_map (fun k => if isFuncKey k then [] else utf8.EncodeRune (ui.Rune k)) ks.

Definition key_events (ks : list ui.Key) : list term.Event :=
  map term.KeyEvent ks.

(** The insertions that the next graphic key continues: those tracked, if
    the buffer is still the one of the last insertion, and none otherwise. *)
Definition tracked {R} (w : widget R) : bytes :=
  if CodeBuffer_eqb (lastCodeBuffer w) (Buffer (state w)) then inserts w else [].

Definition overlay_keeps_range {R} (h : Handler R) : Prop :=
  forall e s b s',
    in_range (Buffer s) -> h e s = Some (b, s') -> in_range (Buffer s').

End Coverage.

(** ** Further concrete configurations *)

Module Runs.
Import codearea Examples.

(** The abbreviations of [abbr_cfg], enumerated the other way round. *)
Definition swapped_cfg : Config unit :=
  mkConfig None (Some [(str "x", str "exchange"); (str "ex", str "example")]) None.

(** One abbreviation only. *)
Definition single_cfg : Config unit :=
  mkConfig None (Some [(str "ex", str "example")]) None.

(** An overlay that handles every event and leaves the state alone. *)
Definition handling_cfg : Config unit :=
  mkConfig (Some (fun _ s => Some (true, s))) None None.

(** A mutation that sets the buffer to [z], with the dot at its end. *)
Definition set_z (s : State unit) : option (State unit) :=
  Some (mkState (mkCodeBuffer (str "z") 1) (Rest s)).

End Runs.
(** * Properties *)

(** Case analysis on the integer comparisons of the goal. *)
Ltac zcases :=
  repeat match goal with
  | |- context [?a <=? ?b] => destruct (Z.leb_spec a b); try lia
  | |- context [?a <? ?b] => destruct (Z.ltb_spec a b); try lia
  | |- context [?a =? ?b] => destruct (Z.eqb_spec a b); try lia
  end.

Ltac znum a :=
  match a with Z0 => idtac | Zpos _ => idtac | Zneg _ => idtac end.

Ltac unfold_consts :=
  cbv beta iota zeta delta
    [utf8.as_ utf8.s1 utf8.s2 utf8.s3 utf8.s4 utf8.s5 utf8.s6 utf8.s7
     utf8.xx utf8.acceptRanges utf8.locb utf8.hicb utf8.UTFMax
     utf8.RuneSelf fst snd nth andb orb negb List.length].

(** Evaluate the operations whose operands are numerals. *)
Ltac fold_consts :=
  repeat (
    unfold_consts;
    progress repeat match goal with
    | |- context [Z.to_nat ?a] =>
        znum a; let v := eval vm_compute in (Z.to_nat a) in
        change (Z.to_nat a) with v
    | |- context [Z.of_nat ?a] =>
        match a with O => idtac | S _ => idtac end;
        let v := eval vm_compute in (Z.of_nat a) in
        change (Z.of_nat a) with v
    | |- context [Z.land ?a ?b] =>
        znum a; znum b; let v := eval vm_compute in (Z.land a b) in
        change (Z.land a b) with v
    | |- context [Z.shiftr ?a ?b] =>
        znum a; znum b; let v := eval vm_compute in (Z.shiftr a b) in
        change (Z.shiftr a b) with v
    | |- context [?a <=? ?b] =>
        znum a; znum b; let v := eval vm_compute in (a <=? b) in
        change (a <=? b) with v
    | |- context [?a <? ?b] =>
        znum a; znum b; let v := eval vm_compute in (a <? b) in
        change (a <? b) with v
    | |- context [?a =? ?b] =>
        znum a; znum b; let v := eval vm_compute in (a =? b) in
        change (a =? b) with v
    end);
  unfold_consts.

(** Run the monadic operations of the widget on an explicit world. *)
Ltac run_m :=
  cbv beta iota zeta delta
    [codearea.bind codearea.ret codearea.emit codearea.update_buffer
     codearea.get codearea.modify codearea.call codearea.resetInserts
     codearea.panic codearea.self codearea.trace codearea.state
     codearea.Buffer codearea.Rest codearea.set_buffer codearea.set_state
     codearea.inserts codearea.lastCodeBuffer codearea.pasting
     codearea.pasteBuffer codearea.set_inserts codearea.set_lastCodeBuffer
     codearea.set_pasting codearea.set_pasteBuffer].

(** ** Go's UTF-8 functions on a few inputs *)

Example EncodeRune_e_acute :
  utf8.EncodeRune 0xE9 = [xc3; xa9].
Proof. reflexivity. Qed.

Example EncodeRune_euro :
  utf8.EncodeRune 0x20AC = [xe2; x82; xac].
Proof. reflexivity. Qed.

Example EncodeRune_surrogate :
  utf8.EncodeRune 0xD800 = [xef; xbf; xbd].
Proof. reflexivity. Qed.

Example EncodeRune_emoji :
  utf8.EncodeRune 0x1F600 = [xf0; x9f; x98; x80].
Proof. reflexivity. Qed.

Example DecodeLastRune_cafe :
  utf8.DecodeLastRuneInString (str "café") = (0xE9, 2).
Proof. reflexivity. Qed.

Example DecodeLastRune_emoji :
  utf8.DecodeLastRuneInString (str "a" ++ utf8.EncodeRune 0x1F600) = (0x1F600, 4).
Proof. reflexivity. Qed.

Example DecodeLastRune_stray :
  utf8.DecodeLastRuneInString [x61; xa9] = (0xFFFD, 1).
Proof. reflexivity. Qed.

Example DecodeLastRune_empty :
  utf8.DecodeLastRuneInString [] = (0xFFFD, 0).
Proof. reflexivity. Qed.
(** ** Bytes, lengths and slices *)

Lemma Z_of_byte_range (b : byte) : 0 <= Z_of_byte b <= 255.
Proof.
  unfold Z_of_byte. pose proof (Byte.to_N_bounded b). lia.
Qed.

Lemma Z_of_byte_of_Z (x : Z) : Z_of_byte (byte_of_Z x) = x mod 256.
Proof.
  unfold Z_of_byte, byte_of_Z.
  assert (Hr : 0 <= x mod 256 < 256) by (apply Z.mod_pos_bound; lia).
  destruct (Byte.of_N (Z.to_N (x mod 256))) as [b |] eqn:E.
  - apply Byte.to_of_N in E. rewrite E. lia.
  - apply Byte.of_N_None_iff in E. lia.
Qed.

Lemma len_app (a b : bytes) : len (a ++ b) = len a + len b.
Proof. unfold len. rewrite length_app. lia. Qed.

Lemma len_nonneg (a : bytes) : 0 <= len a.
Proof. unfold len. lia. Qed.

Lemma len_zero (a : bytes) : len a = 0 -> a = [].
Proof. destruct a; [reflexivity | unfold len; cbn; lia]. Qed.

Lemma firstn_len_app (pre post : bytes) :
  firstn (Z.to_nat (len pre)) (pre ++ post) = pre.
Proof.
  unfold len. rewrite Nat2Z.id, firstn_app, Nat.sub_diag, firstn_all. cbn.
  apply app_nil_r.
Qed.

Lemma skipn_len_app (pre post : bytes) :
  skipn (Z.to_nat (len pre)) (pre ++ post) = post.
Proof.
  unfold len. rewrite Nat2Z.id, skipn_app, Nat.sub_diag, skipn_all. reflexivity.
Qed.

Lemma slice_to_app (pre post : bytes) :
  slice_to (pre ++ post) (len pre) = Some pre.
Proof.
  unfold slice_to. rewrite firstn_len_app, len_app.
  pose proof (len_nonneg pre). pose proof (len_nonneg post).
  replace (0 <=? len pre) with true by (symmetry; apply Z.leb_le; lia).
  replace (len pre <=? len pre + len post) with true
    by (symmetry; apply Z.leb_le; lia).
  reflexivity.
Qed.

Lemma slice_from_app (pre post : bytes) :
  slice_from (pre ++ post) (len pre) = Some post.
Proof.
  unfold slice_from. rewrite skipn_len_app, len_app.
  pose proof (len_nonneg pre). pose proof (len_nonneg post).
  replace (0 <=? len pre) with true by (symmetry; apply Z.leb_le; lia).
  replace (len pre <=? len pre + len post) with true
    by (symmetry; apply Z.leb_le; lia).
  reflexivity.
Qed.

(** A dot within the content splits it in two. *)
Lemma split_at (s : bytes) (n : Z) :
  0 <= n <= len s ->
  s = firstn (Z.to_nat n) s ++ skipn (Z.to_nat n) s /\
  n = len (firstn (Z.to_nat n) s).
Proof.
  intros H. split.
  - symmetry. apply firstn_skipn.
  - unfold len in *. rewrite length_firstn. lia.
Qed.

Lemma InsertAtDot_app (text pre post : bytes) :
  codearea.InsertAtDot text (codearea.mkCodeBuffer (pre ++ post) (len pre)) =
    Some (codearea.mkCodeBuffer (pre ++ text ++ post) (len pre + len text)).
Proof.
  unfold codearea.InsertAtDot. cbn.
  rewrite slice_to_app, slice_from_app. reflexivity.
Qed.

(** ** UTF-8: encoded code points *)

Lemma between_spec (lo hi : Z) (b : byte) :
  between lo hi b = true <-> lo <= Z_of_byte b <= hi.
Proof. unfold between. rewrite andb_true_iff, !Z.leb_le. tauto. Qed.

Lemma cont_spec (b : byte) : cont b = true <-> 0x80 <= Z_of_byte b <= 0xBF.
Proof. apply (between_spec 0x80 0xBF). Qed.

Lemma RuneStart_cont (b : byte) : utf8.RuneStart b = negb (cont b).
Proof. destruct b; reflexivity. Qed.

Lemma valid_char_shape (c : bytes) : valid_char c = true <-> char_shape c.
Proof.
  split.
  - destruct c as [| b0 [| b1 [| b2 [| b3 [| b4 c]]]]]; cbn [valid_char];
      try discriminate.
    + intros H. apply Z.leb_le in H. constructor. exact H.
    + rewrite andb_true_iff, between_spec. intros [H0 H1].
      constructor; assumption.
    + rewrite andb_true_iff, !orb_true_iff, !andb_true_iff, !between_spec,
        cont_spec.
      intros [H H2]. constructor; [| exact H2]. lia.
    + rewrite !andb_true_iff, !orb_true_iff, !andb_true_iff, !between_spec,
        cont_spec.
      intros [[H H2] H3]. constructor; [| exact H2 | exact H3]. lia.
  - intros H. destruct H; cbn [valid_char].
    + apply Z.leb_le. assumption.
    + rewrite andb_true_iff, between_spec. auto.
    + rewrite andb_true_iff, !orb_true_iff, !andb_true_iff, !between_spec,
        cont_spec.
      split; [lia | assumption].
    + rewrite !andb_true_iff, !orb_true_iff, !andb_true_iff, !between_spec,
        cont_spec.
      repeat split; try assumption. lia.
Qed.

Lemma valid_char_len (c : bytes) : valid_char c = true -> 1 <= len c <= 4.
Proof.
  intros H. apply valid_char_shape in H. destruct H; unfold len; cbn; lia.
Qed.

(** The lead byte starts a rune; every later byte is a continuation. *)
Lemma valid_char_bytes (c : bytes) :
  valid_char c = true ->
  exists b0 tl, c = b0 :: tl /\ cont b0 = false /\ forallb cont tl = true.
Proof.
  intros H. apply valid_char_shape in H.
  destruct H as [b0 H0 | b0 b1 H0 H1 | b0 b1 b2 H0 H2 | b0 b1 b2 b3 H0 H2 H3];
    exists b0; eexists; (split; [reflexivity |]); cbn [forallb];
    rewrite ?H1, ?H2, ?H3; cbn [andb];
    (split; [| try reflexivity]).
  all: try (destruct (cont b0) eqn:E; [apply cont_spec in E; lia | reflexivity]).
  all: rewrite andb_true_r; apply cont_spec; lia.
Qed.

(** *** [DecodeRuneInString] on an encoded code point *)

Lemma first_s1 z : 0xC2 <= z <= 0xDF -> utf8.first z = utf8.s1.
Proof. intros H. unfold utf8.first. zcases; reflexivity. Qed.
Lemma first_s2 z : z = 0xE0 -> utf8.first z = utf8.s2.
Proof. intros ->. reflexivity. Qed.
Lemma first_s3 z :
  0xE1 <= z <= 0xEC \/ 0xEE <= z <= 0xEF -> utf8.first z = utf8.s3.
Proof. intros H. unfold utf8.first. zcases; reflexivity. Qed.
Lemma first_s4 z : z = 0xED -> utf8.first z = utf8.s4.
Proof. intros ->. reflexivity. Qed.
Lemma first_s5 z : z = 0xF0 -> utf8.first z = utf8.s5.
Proof. intros ->. reflexivity. Qed.
Lemma first_s6 z : 0xF1 <= z <= 0xF3 -> utf8.first z = utf8.s6.
Proof. intros H. unfold utf8.first. zcases; reflexivity. Qed.
Lemma first_s7 z : z = 0xF4 -> utf8.first z = utf8.s7.
Proof. intros ->. reflexivity. Qed.

Lemma DecodeRune_size (c : bytes) :
  valid_char c = true -> snd (utf8.DecodeRuneInString c) = len c.
Proof.
  intros H. apply valid_char_shape in H.
  destruct H as [b0 H0 | b0 b1 H0 H1 | b0 b1 b2 H0 H2 | b0 b1 b2 b3 H0 H2 H3];
    unfold utf8.DecodeRuneInString, index, len;
    try apply cont_spec in H1; try apply cont_spec in H2;
    try apply cont_spec in H3;
    pose proof (Z_of_byte_range b0).
  - replace (utf8.first (Z_of_byte (nth (Z.to_nat 0) [b0] x00))) with utf8.as_
      by (unfold utf8.first; cbn [nth Z.to_nat]; zcases; reflexivity).
    fold_consts. reflexivity.
  - fold_consts. rewrite (first_s1 _ H0). fold_consts.
    zcases; reflexivity.
  - fold_consts.
    destruct H0 as [[E B] | [[E B] | [[E B] | [E B]]]];
      [ rewrite (first_s2 _ E) | rewrite (first_s3 _ (or_introl E))
      | rewrite (first_s4 _ E) | rewrite (first_s3 _ (or_intror E)) ];
      fold_consts; zcases; reflexivity.
  - fold_consts.
    destruct H0 as [[E B] | [[E B] | [E B]]];
      [ rewrite (first_s5 _ E) | rewrite (first_s6 _ E)
      | rewrite (first_s7 _ E) ];
      fold_consts; zcases; reflexivity.
Qed.

(** *** [DecodeLastRuneInString] on text that ends with an encoded code point *)

Lemma index_app (pre c : bytes) (k : nat) :
  index (pre ++ c) (len pre + Z.of_nat k) = nth k c x00.
Proof.
  unfold index, len.
  replace (Z.to_nat (Z.of_nat (List.length pre) + Z.of_nat k))
    with (List.length pre + k)%nat by lia.
  apply app_nth2_plus.
Qed.

Lemma slice_app (pre c : bytes) :
  slice (pre ++ c) (len pre) (len pre + len c) = c.
Proof.
  unfold slice. rewrite skipn_len_app.
  replace (len pre + len c - len pre) with (len c) by lia.
  unfold len. rewrite Nat2Z.id. apply firstn_all.
Qed.

Lemma scan_back_finds (s : bytes) (p lim : Z) :
  lim <= p ->
  utf8.RuneStart (index s p) = true ->
  forall (k fuel : nat),
    (k < fuel)%nat ->
    (forall i, (0 < i <= k)%nat ->
       utf8.RuneStart (index s (p + Z.of_nat i)) = false) ->
    utf8.scan_back fuel s (p + Z.of_nat k) lim = p.
Proof.
  intros Hlim Hp k. induction k as [| k IH]; intros fuel Hf Hcont;
    (destruct fuel as [| fuel]; [lia |]); cbn [utf8.scan_back].
  - rewrite Z.add_0_r. rewrite Hp.
    replace (lim <=? p) with true by (symmetry; apply Z.leb_le; lia).
    reflexivity.
  - replace (lim <=? p + Z.of_nat (S k)) with true
      by (symmetry; apply Z.leb_le; lia).
    rewrite (Hcont (S k)) by lia.
    replace (p + Z.of_nat (S k) - 1) with (p + Z.of_nat k) by lia.
    apply IH; [lia |]. intros i Hi. apply Hcont. lia.
Qed.

Lemma cont_nth (tl : bytes) (i : nat) :
  forallb cont tl = true -> (i < List.length tl)%nat -> cont (nth i tl x00) = true.
Proof.
  intros H Hi. rewrite forallb_forall in H. apply H. apply nth_In. exact Hi.
Qed.

(** The size that [DecodeLastRuneInString] reports for text ending with an
    encoded code point is the length of that encoding. *)
Lemma DecodeLastRune_size (pre c : bytes) :
  valid_char c = true ->
  snd (utf8.DecodeLastRuneInString (pre ++ c)) = len c.
Proof.
  intros Hc.
  pose proof (valid_char_len c Hc) as Hlen.
  pose proof (DecodeRune_size c Hc) as Hdec.
  destruct (valid_char_bytes c Hc) as (b0 & tl & -> & Hb0 & Htl).
  pose proof (len_nonneg pre) as Hpre.
  assert (Hl : len (b0 :: tl) = 1 + Z.of_nat (List.length tl))
    by (unfold len; cbn [List.length]; lia).
  unfold utf8.DecodeLastRuneInString.
  rewrite len_app, Hl.
  replace (len pre + (1 + Z.of_nat (List.length tl)) =? 0) with false
    by (symmetry; apply Z.eqb_neq; lia).
  replace (len pre + (1 + Z.of_nat (List.length tl)) - 1)
    with (len pre + Z.of_nat (List.length tl)) by lia.
  rewrite index_app.
  assert (Hn : (List.length tl <= 3)%nat) by lia.
  set (n := List.length tl) in *.
  destruct (Nat.eq_dec n 0) as [Hz | Hnz].
  - (* one byte: ASCII *)
    assert (tl = []) by (destruct tl; [reflexivity | discriminate]). subst tl.
    rewrite Hz. cbn [nth].
    apply valid_char_shape in Hc. inversion Hc; subst.
    replace (Z_of_byte b0 <? utf8.RuneSelf) with true
      by (symmetry; apply Z.ltb_lt; unfold utf8.RuneSelf; lia).
    reflexivity.
  - (* several bytes: the last one is a continuation byte *)
    assert (Hlast : cont (nth n (b0 :: tl) x00) = true).
    { replace n with (S (n - 1)) by lia. cbn [nth].
      apply cont_nth; [exact Htl | fold n; lia]. }
    apply cont_spec in Hlast.
    replace (Z_of_byte (nth n (b0 :: tl) x00) <? utf8.RuneSelf) with false
      by (symmetry; apply Z.ltb_ge; unfold utf8.RuneSelf; lia).
    set (lim0 := len pre + (1 + Z.of_nat n) - utf8.UTFMax).
    set (lim := if lim0 <? 0 then 0 else lim0).
    assert (Hlim : lim <= len pre).
    { subst lim lim0. unfold utf8.UTFMax.
      destruct (Z.ltb_spec (len pre + (1 + Z.of_nat n) - 4) 0); lia. }
    replace (len pre + Z.of_nat n - 1) with (len pre + Z.of_nat (n - 1)) by lia.
    rewrite (scan_back_finds (pre ++ b0 :: tl) (len pre) lim Hlim).
    + replace (len pre <? 0) with false by (symmetry; apply Z.ltb_ge; lia).
      replace (len pre + (1 + Z.of_nat n)) with (len pre + len (b0 :: tl))
        by (rewrite Hl; reflexivity).
      rewrite slice_app.
      destruct (utf8.DecodeRuneInString (b0 :: tl)) as [r size].
      cbn [snd] in Hdec. subst size.
      rewrite Z.eqb_refl. cbn [negb snd]. exact Hl.
    + replace (len pre) with (len pre + Z.of_nat 0) by (cbn; lia).
      rewrite index_app. cbn [nth]. rewrite RuneStart_cont, Hb0. reflexivity.
    + unfold utf8.UTFMax. cbn. lia.
    + intros i Hi. rewrite index_app.
      destruct i as [| j]; [lia |]. cbn [nth].
      rewrite RuneStart_cont, cont_nth; [reflexivity | exact Htl |].
      fold n. lia.
Qed.


(** *** [EncodeRune] yields an encoded code point *)

Lemma Z_forall_below (P : Z -> bool) (n : nat) :
  forallb P (map Z.of_nat (seq 0 n)) = true ->
  forall x, 0 <= x < Z.of_nat n -> P x = true.
Proof.
  intros H x Hx. rewrite forallb_forall in H. apply H.
  apply in_map_iff. exists (Z.to_nat x). split; [lia |].
  apply in_seq. lia.
Qed.

Lemma lor_tx (x : Z) : 0 <= x < 64 -> Z.lor utf8.tx x = 0x80 + x.
Proof.
  intros H. apply Z.eqb_eq.
  apply (Z_forall_below (fun x => Z.lor utf8.tx x =? 0x80 + x) 64);
    [vm_compute; reflexivity | lia].
Qed.

Lemma lor_t2 (x : Z) : 0 <= x < 32 -> Z.lor utf8.t2 x = 0xC0 + x.
Proof.
  intros H. apply Z.eqb_eq.
  apply (Z_forall_below (fun x => Z.lor utf8.t2 x =? 0xC0 + x) 32);
    [vm_compute; reflexivity | lia].
Qed.

Lemma lor_t3 (x : Z) : 0 <= x < 16 -> Z.lor utf8.t3 x = 0xE0 + x.
Proof.
  intros H. apply Z.eqb_eq.
  apply (Z_forall_below (fun x => Z.lor utf8.t3 x =? 0xE0 + x) 16);
    [vm_compute; reflexivity | lia].
Qed.

Lemma lor_t4 (x : Z) : 0 <= x < 8 -> Z.lor utf8.t4 x = 0xF0 + x.
Proof.
  intros H. apply Z.eqb_eq.
  apply (Z_forall_below (fun x => Z.lor utf8.t4 x =? 0xF0 + x) 8);
    [vm_compute; reflexivity | lia].
Qed.

Lemma land_maskx (x : Z) : Z.land x utf8.maskx = x mod 64.
Proof. apply (Z.land_ones x 6). lia. Qed.

(** The value of a continuation byte written by [EncodeRune]. *)
Lemma cont_byte_value (x : Z) :
  Z_of_byte (byte_of_Z (Z.lor utf8.tx (Z.land (x mod 256) utf8.maskx))) =
    0x80 + x mod 64.
Proof.
  rewrite Z_of_byte_of_Z, land_maskx, lor_tx
    by (apply Z.mod_pos_bound; lia).
  Z.to_euclidean_division_equations. lia.
Qed.

Lemma shiftr_div (r n : Z) : 0 <= n -> Z.shiftr r n = r / 2 ^ n.
Proof. intros H. apply Z.shiftr_div_pow2. exact H. Qed.

Lemma EncodeRune_valid (r : Z) : valid_char (utf8.EncodeRune r) = true.
Proof.
  unfold utf8.EncodeRune, utf8.encode3, utf8.uint32.
  unfold utf8.rune1Max, utf8.rune2Max, utf8.rune3Max, utf8.MaxRune,
    utf8.surrogateMin, utf8.surrogateMax.
  pose proof (Z.mod_pos_bound r (2 ^ 32) ltac:(lia)) as Hi.
  set (i := r mod 2 ^ 32) in *.
  assert (Hri : r = 2 ^ 32 * (r / 2 ^ 32) + i) by (apply Z.div_mod; lia).
  set (q := r / 2 ^ 32) in *. clearbody q i.
  destruct (Z.leb_spec i 127) as [H1 | H1].
  { apply valid_char_shape. constructor. rewrite Z_of_byte_of_Z.
    subst r. change (2 ^ 32) with (16777216 * 256).
    rewrite <- Z.mul_assoc, (Z.mul_comm 256), Z.mul_assoc, Z.add_comm, Z.mod_add by lia.
    rewrite Z.mod_small by lia. lia. }
  destruct (Z.leb_spec i 2047) as [H2 | H2].
  { apply valid_char_shape. constructor.
    - rewrite Z_of_byte_of_Z, shiftr_div by lia.
      assert (E : (r / 2 ^ 6) mod 256 = i / 64).
      { subst r. change (2 ^ 6) with 64. change (2 ^ 32) with 4294967296.
        Z.to_euclidean_division_equations. lia. }
      rewrite E. rewrite lor_t2 by (Z.to_euclidean_division_equations; lia).
      rewrite Z.mod_small by (Z.to_euclidean_division_equations; lia).
      Z.to_euclidean_division_equations. lia.
    - apply cont_spec. rewrite cont_byte_value.
      pose proof (Z.mod_pos_bound r 64 ltac:(lia)). lia. }
  destruct ((1114111 <? i) || ((55296 <=? i) && (i <=? 57343))) eqn:Hbad;
    [reflexivity |].
  apply orb_false_iff in Hbad. destruct Hbad as [Hmax Hsur].
  apply Z.ltb_ge in Hmax.
  assert (Hs : i < 55296 \/ 57343 < i).
  { apply andb_false_iff in Hsur. destruct Hsur as [H | H];
      [apply Z.leb_gt in H | apply Z.leb_gt in H]; lia. }
  clear Hsur.
  destruct (Z.leb_spec i 65535) as [H3 | H3].
  { apply valid_char_shape.
    assert (E0 : Z_of_byte (byte_of_Z (Z.lor utf8.t3 (Z.shiftr r 12 mod 256)))
                 = 0xE0 + i / 4096).
    { rewrite Z_of_byte_of_Z, shiftr_div by lia.
      assert (E : (r / 2 ^ 12) mod 256 = i / 4096).
      { subst r. change (2 ^ 12) with 4096. change (2 ^ 32) with 4294967296.
        Z.to_euclidean_division_equations. lia. }
      rewrite E. rewrite lor_t3 by (Z.to_euclidean_division_equations; lia).
      rewrite Z.mod_small by (Z.to_euclidean_division_equations; lia).
      reflexivity. }
    assert (E1 : Z_of_byte (byte_of_Z (Z.lor utf8.tx
                   (Z.land (Z.shiftr r 6 mod 256) utf8.maskx)))
                 = 0x80 + (i / 64) mod 64).
    { rewrite cont_byte_value, shiftr_div by lia.
      subst r. change (2 ^ 6) with 64. change (2 ^ 32) with 4294967296.
      Z.to_euclidean_division_equations. lia. }
    constructor.
    - rewrite E0, E1. Z.to_euclidean_division_equations. lia.
    - apply cont_spec. rewrite cont_byte_value.
      pose proof (Z.mod_pos_bound r 64 ltac:(lia)). lia. }
  apply valid_char_shape.
  assert (E0 : Z_of_byte (byte_of_Z (Z.lor utf8.t4 (Z.shiftr r 18 mod 256)))
               = 0xF0 + i / 262144).
  { rewrite Z_of_byte_of_Z, shiftr_div by lia.
    assert (E : (r / 2 ^ 18) mod 256 = i / 262144).
    { subst r. change (2 ^ 18) with 262144. change (2 ^ 32) with 4294967296.
      Z.to_euclidean_division_equations. lia. }
    rewrite E. rewrite lor_t4 by (Z.to_euclidean_division_equations; lia).
    rewrite Z.mod_small by (Z.to_euclidean_division_equations; lia).
    reflexivity. }
  assert (E1 : Z_of_byte (byte_of_Z (Z.lor utf8.tx
                 (Z.land (Z.shiftr r 12 mod 256) utf8.maskx)))
               = 0x80 + (i / 4096) mod 64).
  { rewrite cont_byte_value, shiftr_div by lia.
    subst r. change (2 ^ 12) with 4096. change (2 ^ 32) with 4294967296.
    Z.to_euclidean_division_equations. lia. }
  constructor.
  - rewrite E0, E1. Z.to_euclidean_division_equations. lia.
  - apply cont_spec. rewrite cont_byte_value.
    pose proof (Z.mod_pos_bound (Z.shiftr r 6) 64 ltac:(lia)). lia.
  - apply cont_spec. rewrite cont_byte_value.
    pose proof (Z.mod_pos_bound r 64 ltac:(lia)). lia.
Qed.

(** ** Valid text *)

Lemma ValidString_nil : ValidString [].
Proof. exists []. split; reflexivity. Qed.

Lemma ValidString_app (a b : bytes) :
  ValidString a -> ValidString b -> ValidString (a ++ b).
Proof.
  intros (ca & Ha & ->) (cb & Hb & ->). exists (ca ++ cb). split.
  - rewrite forallb_app, Ha, Hb. reflexivity.
  - symmetry. apply concat_app.
Qed.

Lemma ValidString_char (c : bytes) : valid_char c = true -> ValidString c.
Proof.
  intros H. exists [c]. cbn. rewrite H, app_nil_r. split; reflexivity.
Qed.

(** Valid text is empty or ends with an encoded code point. *)
Lemma ValidString_last (s : bytes) :
  ValidString s ->
  s = [] \/
  exists pre ch, s = pre ++ ch /\ valid_char ch = true /\ ValidString pre.
Proof.
  intros (cs & Hcs & ->).
  destruct cs as [| c0 cs _] using rev_ind; [left; reflexivity | right].
  rewrite forallb_app in Hcs. apply andb_true_iff in Hcs.
  destruct Hcs as [Hcs Hc]. cbn in Hc. rewrite andb_true_r in Hc.
  exists (concat cs), c0. split; [| split].
  - rewrite concat_app. cbn. rewrite app_nil_r. reflexivity.
  - exact Hc.
  - exists cs. split; [exact Hcs | reflexivity].
Qed.


(** *** Valid text is self-synchronising *)



(** ** Abbreviation selection *)

Lemma bytes_eqb_eq (x y : bytes) : bytes_eqb x y = true <-> x = y.
Proof.
  unfold bytes_eqb. destruct (bytes_eq_dec x y); split; congruence.
Qed.

Lemma HasSuffix_spec (s a : bytes) : HasSuffix s a = true <-> is_suffix a s.
Proof.
  unfold HasSuffix, is_suffix. rewrite andb_true_iff, Z.leb_le, bytes_eqb_eq.
  split.
  - intros [Hl Hs]. exists (firstn (Z.to_nat (len s - len a)) s).
    rewrite <- (firstn_skipn (Z.to_nat (len s - len a)) s) at 1.
    f_equal. exact Hs.
  - intros [q ->]. rewrite len_app. pose proof (len_nonneg q). split; [lia |].
    replace (len q + len a - len a) with (len q) by lia.
    apply skipn_len_app.
Qed.

Lemma len_pos_nonempty (a : bytes) : 0 < len a <-> a <> [].
Proof.
  destruct a; unfold len; cbn; split; try congruence; lia.
Qed.

Section Pick.
Import codearea Selection.

Variable ins : bytes.

Lemma candidate_true (q : bytes * bytes) :
  candidate true ins q <-> HasSuffix ins (fst q) = true /\ 0 < len (fst q).
Proof.
  unfold candidate. rewrite HasSuffix_spec, len_pos_nonempty. intuition.
Qed.

Lemma pick_snoc (l : list (bytes * bytes)) (q : bytes * bytes) :
  pick (l ++ [q]) ins = visit ins (pick l ins) q.
Proof. unfold pick. rewrite fold_left_app. reflexivity. Qed.

(** The fold of the visitor computes the selection of the specification,
    over the non-empty abbreviations. *)
Lemma pick_spec (abbrs : list (bytes * bytes)) :
  (0 < len (fst (pick abbrs ins)) /\ selects true abbrs ins (pick abbrs ins))
  \/ (pick abbrs ins = ([], []) /\ no_candidate true abbrs ins).
Proof.
  induction abbrs as [| q l IH] using rev_ind.
  - right. split; [reflexivity |]. intros q [].
  - rewrite pick_snoc. unfold visit.
    destruct (HasSuffix ins (fst q)) eqn:Hs; cbn [andb].
    + destruct (len (fst (pick l ins)) <? len (fst q)) eqn:Hl.
      * (* the new pair is strictly longer *)
        apply Z.ltb_lt in Hl. left.
        assert (Hq : 0 < len (fst q))
          by (pose proof (len_nonneg (fst (pick l ins))); lia).
        split; [exact Hq |].
        exists (List.length l). split; [| split].
        -- rewrite nth_error_app2, Nat.sub_diag by lia. reflexivity.
        -- apply candidate_true. auto.
        -- intros j q' Hj Hc.
           destruct (Nat.lt_ge_cases j (List.length l)) as [Hlt | Hge].
           ++ rewrite nth_error_app1 in Hj by exact Hlt.
              destruct IH as [[_ (i & Hi & _ & Hmax)] | [_ Hnone]].
              ** destruct (Hmax j q' Hj Hc) as [Hle _]. lia.
              ** exfalso. apply (Hnone q'); [| exact Hc].
                 eapply nth_error_In; eauto.
           ++ rewrite nth_error_app2 in Hj by exact Hge.
              destruct (j - List.length l)%nat as [| k] eqn:Hk;
                [| destruct k; discriminate].
              injection Hj as <-. split; [lia | lia].
      * (* the kept pair is at least as long *)
        apply Z.ltb_ge in Hl.
        destruct IH as [[Hpos (i & Hi & Hc0 & Hmax)] | [Hnil Hnone]].
        -- left. split; [exact Hpos |].
           assert (Hil : (i < List.length l)%nat)
             by (apply nth_error_Some; congruence).
           exists i. split; [| split].
           ++ rewrite nth_error_app1 by exact Hil. exact Hi.
           ++ exact Hc0.
           ++ intros j q' Hj Hc.
              destruct (Nat.lt_ge_cases j (List.length l)) as [Hlt | Hge].
              ** rewrite nth_error_app1 in Hj by exact Hlt. eauto.
              ** rewrite nth_error_app2 in Hj by exact Hge.
                 destruct (j - List.length l)%nat as [| k] eqn:Hk;
                   [| destruct k; discriminate].
                 injection Hj as <-. split; [lia | lia].
        -- right. split; [exact Hnil |].
           intros q' Hin Hc. apply in_app_or in Hin.
           destruct Hin as [Hin | [<- | []]].
           ++ exact (Hnone q' Hin Hc).
           ++ apply candidate_true in Hc. rewrite Hnil in Hl.
              change (len (fst ([], []))) with 0 in Hl. lia.
    + (* the new pair does not end the inserted text *)
      destruct IH as [[Hpos (i & Hi & Hc0 & Hmax)] | [Hnil Hnone]].
      * left. split; [exact Hpos |].
        assert (Hil : (i < List.length l)%nat)
          by (apply nth_error_Some; congruence).
        exists i. split; [| split].
        -- rewrite nth_error_app1 by exact Hil. exact Hi.
        -- exact Hc0.
        -- intros j q' Hj Hc.
           destruct (Nat.lt_ge_cases j (List.length l)) as [Hlt | Hge].
           ++ rewrite nth_error_app1 in Hj by exact Hlt. eauto.
           ++ rewrite nth_error_app2 in Hj by exact Hge.
              destruct (j - List.length l)%nat as [| k] eqn:Hk;
                [| destruct k; discriminate].
              injection Hj as <-. apply candidate_true in Hc.
              destruct Hc as [Hc _]. congruence.
      * right. split; [exact Hnil |].
        intros q' Hin Hc. apply in_app_or in Hin.
        destruct Hin as [Hin | [<- | []]].
        -- exact (Hnone q' Hin Hc).
        -- apply candidate_true in Hc. destruct Hc as [Hc _]. congruence.
Qed.

(** At most one pair is selected. *)
Lemma selects_unique (b : bool) (abbrs : list (bytes * bytes)) (p p' : bytes * bytes) :
  selects b abbrs ins p -> selects b abbrs ins p' -> p = p'.
Proof.
  intros (i & Hi & Hc & Hmax) (i' & Hi' & Hc' & Hmax').
  destruct (Hmax i' p' Hi' Hc') as [H1 H2].
  destruct (Hmax' i p Hi Hc) as [H1' H2'].
  destruct (Nat.lt_trichotomy i i') as [Hlt | [Heq | Hgt]].
  - specialize (H2' Hlt). lia.
  - subst i'. congruence.
  - specialize (H2 Hgt). lia.
Qed.

Lemma selects_candidate_In (b : bool) (abbrs : list (bytes * bytes)) (p : bytes * bytes) :
  selects b abbrs ins p -> In p abbrs /\ candidate b ins p.
Proof.
  intros (i & Hi & Hc & _). split; [eapply nth_error_In; eauto | exact Hc].
Qed.

Lemma pick_selected (abbrs : list (bytes * bytes)) (p : bytes * bytes) :
  selects true abbrs ins p -> pick abbrs ins = p /\ 0 < len (fst p).
Proof.
  intros Hsel.
  destruct (pick_spec abbrs) as [[Hpos Hp] | [_ Hnone]].
  - rewrite (selects_unique _ _ _ _ Hsel Hp). split; [reflexivity | exact Hpos].
  - exfalso. apply selects_candidate_In in Hsel. destruct Hsel as [Hin Hc].
    exact (Hnone p Hin Hc).
Qed.

Lemma pick_none (abbrs : list (bytes * bytes)) :
  no_candidate true abbrs ins -> pick abbrs ins = ([], []).
Proof.
  intros Hnone.
  destruct (pick_spec abbrs) as [[_ Hp] | [Hnil _]]; [| exact Hnil].
  exfalso. apply selects_candidate_In in Hp. destruct Hp as [Hin Hc].
  exact (Hnone _ Hin Hc).
Qed.

End Pick.

(** ** Runs of the handlers *)

Section Runs.
Import codearea Selection Invariants.

Variable R : Type.
Variable Quote : bytes -> bytes.
Variable Backspace : Z.
Variable inGraphicRanges : Z -> bool.

Local Abbreviation handleKeyEvent := (handleKeyEvent R Backspace inGraphicRanges).
Local Abbreviation handlePasteSetting := (handlePasteSetting R Quote).
Local Abbreviation dispatchAll := (dispatchAll R Quote Backspace inGraphicRanges).
Local Abbreviation IsGraphic := (unicode.IsGraphic inGraphicRanges).

Lemma Key_eqb_eq (a b : ui.Key) : ui.Key_eqb a b = true <-> a = b.
Proof.
  unfold ui.Key_eqb. rewrite andb_true_iff, !Z.eqb_eq.
  destruct a, b; cbn. split; [intros [-> ->]; reflexivity | intros [= -> ->]; auto].
Qed.

Lemma CodeBuffer_eqb_eq (a b : CodeBuffer) : CodeBuffer_eqb a b = true <-> a = b.
Proof.
  unfold CodeBuffer_eqb. rewrite andb_true_iff, bytes_eqb_eq, Z.eqb_eq.
  destruct a, b; cbn. split; [intros [-> ->]; reflexivity | intros [= -> ->]; auto].
Qed.

(** A function key: a modifier is set, or the rune is negative. *)
Lemma isFuncKey_true (key : ui.Key) :
  ui.Mod key <> 0 \/ ui.Rune key < 0 ->
  negb (ui.Mod key =? 0) || (ui.Rune key <? 0) = true.
Proof.
  intros [H | H].
  - apply Z.eqb_neq in H. rewrite H. reflexivity.
  - apply Z.ltb_lt in H. rewrite H. apply orb_true_r.
Qed.

Lemma WriteRune_encode (r : Z) (buf : bytes) :
  WriteRune r buf = buf ++ utf8.EncodeRune r.
Proof.
  unfold WriteRune, utf8.EncodeRune.
  destruct (utf8.uint32 r <? utf8.RuneSelf) eqn:E; [| reflexivity].
  apply Z.ltb_lt in E. unfold utf8.RuneSelf in E.
  replace (utf8.uint32 r <=? utf8.rune1Max) with true; [reflexivity |].
  symmetry. apply Z.leb_le. unfold utf8.rune1Max. lia.
Qed.

(** *** Keys while pasting, Enter, and the keys left to the caller *)

Lemma pasting_key_run (cfg : Config R) (key : ui.Key) (w : widget R) (tr : list Op) :
  pasting w = true ->
  handleKeyEvent cfg key (mkWorld w tr) =
    Some (true,
          mkWorld (if negb (ui.Mod key =? 0) || (ui.Rune key <? 0) then w
                   else set_pasteBuffer
                          (pasteBuffer w ++ utf8.EncodeRune (ui.Rune key)) w)
                  tr).
Proof.
  intros Hp.
  unfold codearea.handleKeyEvent, bind, get. cbn [self]. rewrite Hp.
  destruct (negb (ui.Mod key =? 0) || (ui.Rune key <? 0)).
  - reflexivity.
  - cbn. rewrite WriteRune_encode. reflexivity.
Qed.

Lemma enter_run (cfg : Config R) (w : widget R) (tr : list Op) :
  pasting w = false ->
  handleKeyEvent cfg (ui.K 10) (mkWorld w tr) =
    Some (true,
          mkWorld (reset w)
                  (tr ++ [OpResetInserts; OpOnSubmit (Content (Buffer (state w)))])).
Proof.
  intros Hp.
  unfold codearea.handleKeyEvent, bind, get. cbn [self].
  rewrite Hp. cbn.
  rewrite <- app_assoc. reflexivity.
Qed.

(** The key events of the normal state other than Enter, Backspace and the
    graphic keys. *)
Lemma other_key_run (cfg : Config R) (key : ui.Key) (w : widget R) (tr : list Op) :
  pasting w = false ->
  ui.Key_eqb key (ui.K 10) = false ->
  ui.Key_eqb key (ui.K Backspace) = false ->
  negb (ui.Mod key =? 0) || (ui.Rune key <? 0)
    || negb (IsGraphic (ui.Rune key)) = true ->
  handleKeyEvent cfg key (mkWorld w tr) =
    Some (false, mkWorld (reset w) (tr ++ [OpResetInserts])).
Proof.
  intros Hp H1 H2 H3.
  unfold codearea.handleKeyEvent, bind, get. cbn [self].
  rewrite Hp, H1, H2, H3. reflexivity.
Qed.

(** *** Paste events *)

Lemma insert_in_state_app (text pre post : bytes) (rest : R) :
  insert_in_state R text (mkState (mkCodeBuffer (pre ++ post) (len pre)) rest) =
    Some (mkState (mkCodeBuffer (pre ++ text ++ post) (len pre + len text)) rest).
Proof.
  unfold insert_in_state. cbn [Buffer Rest]. rewrite InsertAtDot_app. reflexivity.
Qed.

(** Paste-end, whatever the pasting flag says. *)
Lemma paste_end_run
    (cfg : Config R) (w : widget R) (tr : list Op) (pre post : bytes) :
  Buffer (state w) = mkCodeBuffer (pre ++ post) (len pre) ->
  let text := if quotes cfg then Quote (pasteBuffer w) else pasteBuffer w in
  handlePasteSetting (init cfg) false (mkWorld w tr) =
    Some (true,
          mkWorld (pasted w pre text post)
                  (tr ++ [OpResetInserts; OpInsertAtDot text])).
Proof.
  intros Hb text.
  unfold codearea.handlePasteSetting, bind, get, resetInserts, emit, modify,
    MutateCodeAreaState, call, ret.
  cbn. fold (quotes cfg). fold text.
  destruct w as [[c rest] ins last p pb]. cbn in *. subst c.
  unfold bind, get. cbn.
  rewrite insert_in_state_app. cbn.
  rewrite <- app_assoc. reflexivity.
Qed.

Lemma dispatchAll_app (cfg : Config R) (a b : list term.Event) (w : World R) :
  dispatchAll cfg (a ++ b) w =
    match dispatchAll cfg a w with
    | Some (_, w') => dispatchAll cfg b w'
    | None => None
    end.
Proof.
  revert w. induction a as [| e a IH]; intros w; cbn.
  - reflexivity.
  - unfold bind.
    destruct (dispatch _ _ _ _ _ _ w) as [[h w'] |]; [apply IH | reflexivity].
Qed.

(** Unmodified keys with non-negative runes, received while pasting, append
    their encodings to the paste buffer and change nothing else. *)
Lemma keys_while_pasting (cfg : Config R) (rs : list Z) (w : widget R) (tr : list Op) :
  pasting w = true ->
  Forall (fun r => 0 <= r) rs ->
  dispatchAll cfg (keys rs) (mkWorld w tr) =
    Some (tt, mkWorld (set_pasteBuffer
                         (pasteBuffer w ++ concat (map utf8.EncodeRune rs)) w) tr).
Proof.
  intros Hp Hrs. revert w Hp.
  induction Hrs as [| r rs Hr _ IH]; intros w Hp; cbn.
  - rewrite app_nil_r. destruct w; reflexivity.
  - unfold bind at 1. rewrite pasting_key_run by exact Hp.
    cbn [ui.K ui.Mod ui.Rune].
    replace (r <? 0) with false by (symmetry; apply Z.ltb_ge; exact Hr).
    cbn [Z.eqb negb orb]. fold (keys rs).
    rewrite IH by exact Hp.
    cbn. rewrite <- app_assoc. reflexivity.
Qed.

(** A whole bracketed paste, with its trace. *)
Lemma paste_run
    (cfg : Config R) (rs : list Z) (w : widget R) (tr : list Op)
    (pre post : bytes) :
  pasting w = false ->
  pasteBuffer w = [] ->
  Buffer (state w) = mkCodeBuffer (pre ++ post) (len pre) ->
  Forall (fun r => 0 <= r) rs ->
  let text := concat (map utf8.EncodeRune rs) in
  let text' := if quotes cfg then Quote text else text in
  dispatchAll cfg (paste_events rs) (mkWorld w tr) =
    Some (tt,
          mkWorld (pasted w pre text' post)
                  (tr ++ [OpResetInserts; OpResetInserts; OpInsertAtDot text'])).
Proof.
  intros Hp Hpb Hb Hrs text text'.
  destruct w as [[c rest] ins last p pb]. cbn in Hp, Hpb, Hb. subst p pb c.
  unfold paste_events.
  change (term.PasteSetting true :: keys rs ++ [term.PasteSetting false])
    with ([term.PasteSetting true] ++ keys rs ++ [term.PasteSetting false]).
  rewrite dispatchAll_app. cbn.
  rewrite dispatchAll_app.
  rewrite keys_while_pasting by (reflexivity || assumption).
  cbn [codearea.dispatchAll]. unfold bind at 1. cbn [dispatch].
  rewrite (paste_end_run cfg _ _ pre post) by reflexivity.
  cbn. fold text. fold text'. unfold pasted. cbn.
  rewrite <- app_assoc. reflexivity.
Qed.

(** *** Backspace *)

Lemma delete_before_dot_char (pre ch post : bytes) (rest : R) :
  valid_char ch = true ->
  delete_before_dot R
    (mkState (mkCodeBuffer (pre ++ ch ++ post) (len pre + len ch)) rest) =
  Some (mkState (mkCodeBuffer (pre ++ post) (len pre)) rest).
Proof.
  intros Hch. unfold delete_before_dot. cbn [Buffer Content Dot Rest].
  rewrite app_assoc, <- len_app.
  rewrite slice_to_app, slice_from_app.
  rewrite DecodeLastRune_size by exact Hch.
  rewrite len_app. replace (len pre + len ch - len ch) with (len pre) by lia.
  rewrite <- app_assoc, slice_to_app. reflexivity.
Qed.

Lemma delete_before_dot_start (content : bytes) (rest : R) :
  delete_before_dot R (mkState (mkCodeBuffer content 0) rest) =
  Some (mkState (mkCodeBuffer content 0) rest).
Proof.
  unfold delete_before_dot. cbn [Buffer Content Dot Rest].
  change 0 with (len []) at 1 2 3 5.
  change content with ([] ++ content) at 1 2 3.
  rewrite slice_to_app.
  cbn [utf8.DecodeLastRuneInString len List.length Z.of_nat Z.eqb snd].
  change (0 - 0) with (len []).
  rewrite slice_to_app, slice_from_app. reflexivity.
Qed.

Lemma backspace_run (cfg : Config R) (w : widget R) (tr : list Op) (s' : State R) :
  Backspace <> 10 ->
  pasting w = false ->
  delete_before_dot R (state w) = Some s' ->
  handleKeyEvent cfg (ui.K Backspace) (mkWorld w tr) =
    Some (true, mkWorld (set_state s' (reset w)) (tr ++ [OpResetInserts])).
Proof.
  intros Hb Hp Hd.
  unfold codearea.handleKeyEvent, bind, get. cbn [self].
  rewrite Hp. unfold ui.Key_eqb, ui.K. cbn [ui.Rune ui.Mod].
  replace (Backspace =? 10) with false by (symmetry; apply Z.eqb_neq; exact Hb).
  rewrite !Z.eqb_refl. cbn [andb].
  unfold MutateCodeAreaState, resetInserts, bind, get, emit, modify, ret.
  cbn [self trace reset set_inserts set_lastCodeBuffer state].
  rewrite Hd. reflexivity.
Qed.

Lemma buffer_ok_app (pre post : bytes) :
  ValidString pre -> ValidString post ->
  buffer_ok (mkCodeBuffer (pre ++ post) (len pre)).
Proof.
  intros Hpre Hpost. unfold buffer_ok. cbn [Content Dot].
  rewrite firstn_len_app, skipn_len_app, len_app.
  pose proof (len_nonneg pre). pose proof (len_nonneg post).
  repeat split; (lia || assumption).
Qed.

Lemma buffer_ok_split (c : CodeBuffer) :
  buffer_ok c ->
  exists pre post,
    c = mkCodeBuffer (pre ++ post) (len pre) /\
    ValidString pre /\ ValidString post.
Proof.
  intros (Hr & Hpre & Hpost). destruct c as [content dot]. cbn [Content Dot] in *.
  destruct (split_at content dot Hr) as [Hs Hd].
  exists (firstn (Z.to_nat dot) content), (skipn (Z.to_nat dot) content).
  rewrite <- Hs, <- Hd. auto.
Qed.

(** Backspace on a buffer that satisfies the invariant: the deletion does
    not panic, it removes the code point that ends at the dot, if any, and
    the buffer still satisfies the invariant. *)
Lemma delete_before_dot_ok (s : State R) :
  buffer_ok (Buffer s) ->
  exists c',
    delete_before_dot R s = Some (mkState c' (Rest s))
    /\ buffer_ok c'
    /\ ((Dot (Buffer s) = 0 /\ c' = Buffer s)
        \/ exists pre ch post,
             valid_char ch = true /\
             Content (Buffer s) = pre ++ ch ++ post /\
             Dot (Buffer s) = len pre + len ch /\
             c' = mkCodeBuffer (pre ++ post) (Dot (Buffer s) - len ch)).
Proof.
  intros Hb. destruct s as [c rest]. cbn [Buffer Rest] in *.
  destruct (buffer_ok_split c Hb) as (pre & post & -> & Hpre & Hpost).
  cbn [Content Dot].
  destruct (ValidString_last pre Hpre) as [-> | (pre' & ch & -> & Hch & Hpre')].
  - exists (mkCodeBuffer post 0). split; [apply delete_before_dot_start |].
    split; [| left; split; reflexivity].
    apply (buffer_ok_app [] post); [apply ValidString_nil | exact Hpost].
  - exists (mkCodeBuffer (pre' ++ post) (len pre')). split; [| split].
    + rewrite <- app_assoc, len_app. apply delete_before_dot_char. exact Hch.
    + apply buffer_ok_app; assumption.
    + right. exists pre', ch, post. rewrite <- app_assoc, len_app.
      repeat split; try assumption. f_equal. lia.
Qed.

(** *** Graphic keys *)

Lemma graphic_not_enter (r : Z) : IsGraphic r = true -> r <> 10.
Proof. intros H ->. discriminate H. Qed.

Lemma expand_app (a f pre' post : bytes) :
  expand a f (mkCodeBuffer (pre' ++ a ++ post) (len pre' + len a)) =
    Some (mkCodeBuffer (pre' ++ f ++ post) (len pre' + len f)).
Proof.
  unfold expand. cbn [Content Dot].
  replace (len pre' + len a - len a) with (len pre') by lia.
  rewrite slice_to_app.
  rewrite app_assoc, <- len_app, slice_from_app. reflexivity.
Qed.

(** The tracked text, with the key just typed, ends what is before the dot. *)
Lemma tracked_suffix (w : widget R) (pre post s : bytes) :
  track_ok w ->
  Buffer (state w) = mkCodeBuffer (pre ++ post) (len pre) ->
  is_suffix
    ((if CodeBuffer_eqb (lastCodeBuffer w) (Buffer (state w))
      then inserts w else []) ++ s)
    (pre ++ s).
Proof.
  intros [_ [q Hq]] Hb.
  destruct (CodeBuffer_eqb _ _) eqn:E.
  - apply CodeBuffer_eqb_eq in E. rewrite E, Hb in Hq. cbn [Content Dot] in Hq.
    rewrite firstn_len_app in Hq. exists q. rewrite Hq, app_assoc. reflexivity.
  - exists pre. reflexivity.
Qed.

(** What the default branch of [handleKeyEvent] computes. *)
Lemma graphic_key_run
    (cfg : Config R) (key : ui.Key) (w : widget R) (tr : list Op)
    (pre post : bytes) :
  pasting w = false ->
  ui.Mod key = 0 ->
  0 <= ui.Rune key ->
  IsGraphic (ui.Rune key) = true ->
  ui.Rune key <> Backspace ->
  Buffer (state w) = mkCodeBuffer (pre ++ post) (len pre) ->
  let s := utf8.EncodeRune (ui.Rune key) in
  let continuing := CodeBuffer_eqb (lastCodeBuffer w) (Buffer (state w)) in
  let ins := (if continuing then inserts w else []) ++ s in
  let tr1 :=
    tr ++ (if continuing then [] else [OpResetInserts]) ++ [OpInsertAtDot s] in
  handleKeyEvent (init cfg) key (mkWorld w tr) =
    let p := pick (abbreviations cfg) ins in
    if 0 <? len (fst p) then
      match expand (fst p) (snd p)
              (mkCodeBuffer (pre ++ s ++ post) (len pre + len s)) with
      | Some c =>
          Some (true,
                mkWorld (mkWidget (mkState c (Rest (state w))) []
                                  CodeBuffer_zero (pasting w) (pasteBuffer w))
                        (tr1 ++ [OpResetInserts]))
      | None => None
      end
    else Some (true, mkWorld (typed w pre s post ins) tr1).
Proof.
  intros Hp Hm Hr Hg Hb Hbuf s continuing ins tr1.
  destruct key as [r m]. cbn in Hm, Hr, Hg, Hb, s. subst m.
  destruct w as [[c rest] ins0 last p pb]. cbn in Hp, Hbuf. subst p c.
  unfold codearea.handleKeyEvent. unfold bind at 1. unfold get at 1.
  cbn [self pasting ui.Mod ui.Rune].
  unfold ui.Key_eqb, ui.K. cbn [ui.Mod ui.Rune].
  replace (r =? 10) with false
    by (symmetry; apply Z.eqb_neq; apply graphic_not_enter; exact Hg).
  replace (r =? Backspace) with false by (symmetry; apply Z.eqb_neq; exact Hb).
  replace (r <? 0) with false by (symmetry; apply Z.ltb_ge; exact Hr).
  rewrite Hg. cbn [andb orb negb Z.eqb].
  subst continuing ins tr1. cbn [lastCodeBuffer state Buffer inserts] in *.
  fold s.
  destruct (CodeBuffer_eqb last {| Content := pre ++ post; Dot := len pre |});
    cbn [negb];
    change (Abbreviations (init cfg)) with (Some (abbreviations cfg));
    run_m; rewrite InsertAtDot_app; run_m; fold s;
    [ destruct (pick (abbreviations cfg) (ins0 ++ s)) as [a f]
    | destruct (pick (abbreviations cfg) ([] ++ s)) as [a f] ];
    cbn [fst snd]; destruct (0 <? len a); run_m;
    try (destruct (expand a f _); [| reflexivity]; run_m);
    unfold typed; cbn [state Rest pasting pasteBuffer];
    rewrite <- ?app_assoc; reflexivity.
Qed.


(** A selected pair is expanded where its abbreviation ends, at the dot. *)
Lemma graphic_key_expands
    (cfg : Config R) (key : ui.Key) (w : widget R) (tr : list Op)
    (pre post a f : bytes) :
  pasting w = false ->
  ui.Mod key = 0 ->
  0 <= ui.Rune key ->
  IsGraphic (ui.Rune key) = true ->
  ui.Rune key <> Backspace ->
  Buffer (state w) = mkCodeBuffer (pre ++ post) (len pre) ->
  track_ok w ->
  let s := utf8.EncodeRune (ui.Rune key) in
  let continuing := CodeBuffer_eqb (lastCodeBuffer w) (Buffer (state w)) in
  let ins := (if continuing then inserts w else []) ++ s in
  let tr1 :=
    tr ++ (if continuing then [] else [OpResetInserts]) ++ [OpInsertAtDot s] in
  selects true (abbreviations cfg) ins (a, f) ->
  exists pre',
    pre ++ s = pre' ++ a /\
    handleKeyEvent (init cfg) key (mkWorld w tr) =
      Some (true, mkWorld (expanded w pre' f post) (tr1 ++ [OpResetInserts])).
Proof.
  intros Hp Hm Hr Hg Hb Hbuf Ht s continuing ins tr1 Hsel.
  pose proof (graphic_key_run cfg key w tr pre post Hp Hm Hr Hg Hb Hbuf) as Hrun.
  pose proof (tracked_suffix w pre post s Ht Hbuf) as Hsuf.
  cbv zeta in Hrun. fold s continuing ins in Hrun, Hsuf. fold tr1 in Hrun.
  destruct (pick_selected ins _ _ Hsel) as [Hpick Hpos]. cbn [fst] in Hpos.
  destruct (selects_candidate_In ins _ _ _ Hsel) as [_ [[q Hq] _]].
  cbn [fst] in Hq.
  destruct Hsuf as [q' Hq'].
  exists (q' ++ q). split.
  - rewrite Hq', Hq, app_assoc. reflexivity.
  - rewrite Hrun, Hpick. cbn [fst snd].
    replace (0 <? len a) with true by (symmetry; apply Z.ltb_lt; exact Hpos).
    replace (pre ++ s ++ post) with ((q' ++ q) ++ a ++ post)
      by (rewrite (app_assoc pre), Hq', Hq, <- !app_assoc; reflexivity).
    replace (len pre + len s) with (len (q' ++ q) + len a)
      by (rewrite <- !len_app, Hq', Hq, <- !app_assoc; reflexivity).
    rewrite expand_app. reflexivity.
Qed.

(** With no candidate the key is only inserted and tracked. *)
Lemma graphic_key_inserts
    (cfg : Config R) (key : ui.Key) (w : widget R) (tr : list Op)
    (pre post : bytes) :
  pasting w = false ->
  ui.Mod key = 0 ->
  0 <= ui.Rune key ->
  IsGraphic (ui.Rune key) = true ->
  ui.Rune key <> Backspace ->
  Buffer (state w) = mkCodeBuffer (pre ++ post) (len pre) ->
  let s := utf8.EncodeRune (ui.Rune key) in
  let continuing := CodeBuffer_eqb (lastCodeBuffer w) (Buffer (state w)) in
  let ins := (if continuing then inserts w else []) ++ s in
  let tr1 :=
    tr ++ (if continuing then [] else [OpResetInserts]) ++ [OpInsertAtDot s] in
  no_candidate true (abbreviations cfg) ins ->
  handleKeyEvent (init cfg) key (mkWorld w tr) =
    Some (true, mkWorld (typed w pre s post ins) tr1).
Proof.
  intros Hp Hm Hr Hg Hb Hbuf s continuing ins tr1 Hnone.
  rewrite (graphic_key_run cfg key w tr pre post Hp Hm Hr Hg Hb Hbuf).
  cbv zeta. fold s continuing ins. rewrite (pick_none ins _ Hnone). reflexivity.
Qed.

End Runs.

(** ** The key-event state machine *)

Section KeyEvents.
Import codearea Selection Invariants.

Variable R : Type.
Variable Quote : bytes -> bytes.
Variable Backspace : Z.
Variable inGraphicRanges : Z -> bool.

Local Abbreviation handleKeyEvent := (handleKeyEvent R Backspace inGraphicRanges).
Local Abbreviation handlePasteSetting := (handlePasteSetting R Quote).
Local Abbreviation dispatchAll := (dispatchAll R Quote Backspace inGraphicRanges).
Local Abbreviation IsGraphic := (unicode.IsGraphic inGraphicRanges).

(** C1, as the code has it. A graphic key in the normal state -- no
    modifier, a non-negative graphic rune, not the backspace key -- on a
    widget whose insertion tracking is sound, inserts its encoding at the
    dot and then selects, among the pairs whose abbreviation is non-empty
    and ends the consecutively inserted text, the one with the longest
    abbreviation, the first such pair in enumeration order on a tie. If a
    pair is selected, the bytes of the abbreviation, which end at the dot,
    are replaced by the expansion, the dot moves to the end of the
    expansion and insertion tracking is reset. If no pair qualifies, the
    key is only inserted and tracked. *)
Theorem graphic_key_expands_longest_abbreviation
    (cfg : Config R) (key : ui.Key) (w : widget R) (tr : list Op)
    (pre post : bytes) :
  pasting w = false ->
  ui.Mod key = 0 ->
  0 <= ui.Rune key ->
  IsGraphic (ui.Rune key) = true ->
  ui.Rune key <> Backspace ->
  Buffer (state w) = mkCodeBuffer (pre ++ post) (len pre) ->
  track_ok w ->
  expansion_claim R Backspace inGraphicRanges true cfg key w tr pre post.
Proof.
  intros Hp Hm Hr Hg Hb Hbuf Ht. split.
  - intros a f Hsel.
    exact (graphic_key_expands R Backspace inGraphicRanges cfg key w tr
             pre post a f Hp Hm Hr Hg Hb Hbuf Ht Hsel).
  - intros Hnone.
    exact (graphic_key_inserts R Backspace inGraphicRanges cfg key w tr
             pre post Hp Hm Hr Hg Hb Hbuf Hnone).
Qed.

(** C2, as the code has it. A bracketed paste received in the normal state
    -- paste-start, unmodified keys with non-negative runes, paste-end --
    collects the encodings of the runes in the paste buffer and, at
    paste-end, inserts the collected text at the dot by one [InsertAtDot]
    call, after the quote function when the quoting predicate holds; the
    paste buffer is then empty and the widget is back in the normal state.
    Insertion tracking is reset twice: once at paste-start, once at
    paste-end. *)
Theorem paste_inserts_once_resets_twice
    (cfg : Config R) (rs : list Z) (w : widget R) (tr : list Op)
    (pre post : bytes) :
  pasting w = false ->
  pasteBuffer w = [] ->
  Buffer (state w) = mkCodeBuffer (pre ++ post) (len pre) ->
  Forall (fun r => 0 <= r) rs ->
  paste_claim R Backspace inGraphicRanges Quote 2 cfg rs w tr pre post.
Proof.
  intros Hp Hpb Hb Hrs. unfold paste_claim. cbv zeta.
  eexists. split; [| split].
  - exact (paste_run R Quote Backspace inGraphicRanges cfg rs w tr pre post
             Hp Hpb Hb Hrs).
  - reflexivity.
  - reflexivity.
Qed.

(** C3. For every buffer that satisfies the buffer invariant, a Backspace
    key in the normal state removes the one encoded code point that ends at
    the dot -- all its bytes -- and moves the dot back by the length of that
    encoding; with the dot at 0 the buffer is unchanged. Insertion tracking
    is reset and nothing else changes. *)
Theorem backspace_removes_one_code_point
    (cfg : Config R) (w : widget R) (tr : list Op) :
  Backspace <> 10 ->
  pasting w = false ->
  buffer_ok (Buffer (state w)) ->
  exists c',
    handleKeyEvent cfg (ui.K Backspace) (mkWorld w tr) =
      Some (true, mkWorld (set_buffer c' (reset w)) (tr ++ [OpResetInserts]))
    /\ ((Dot (Buffer (state w)) = 0 /\ c' = Buffer (state w))
        \/ exists pre ch post,
             valid_char ch = true /\
             Content (Buffer (state w)) = pre ++ ch ++ post /\
             Dot (Buffer (state w)) = len pre + len ch /\
             c' = mkCodeBuffer (pre ++ post) (Dot (Buffer (state w)) - len ch)).
Proof.
  intros Hb Hp Hok.
  destruct (delete_before_dot_ok R (state w) Hok) as (c' & Hd & _ & Hshape).
  exists c'. split; [| exact Hshape].
  exact (backspace_run R Backspace inGraphicRanges cfg w tr _ Hb Hp Hd).
Qed.

(** C6. For every buffer, an Enter key in the normal state calls the submit
    callback exactly once, with the current content; the buffer and the rest
    of the state stay as they were, and the only change to the widget is the
    reset of insertion tracking. *)
Theorem enter_submits_once (cfg : Config R) (w : widget R) (tr : list Op) :
  pasting w = false ->
  handleKeyEvent cfg (ui.K 10) (mkWorld w tr) =
    Some (true,
          mkWorld (reset w)
                  (tr ++ [OpResetInserts; OpOnSubmit (Content (Buffer (state w)))]))
  /\ state (reset w) = state w
  /\ pasting (reset w) = pasting w
  /\ pasteBuffer (reset w) = pasteBuffer w.
Proof.
  intros Hp. split; [| repeat split].
  exact (enter_run R Backspace inGraphicRanges cfg w tr Hp).
Qed.

(** C8. A function key received while pasting is dropped: the paste buffer,
    the code buffer, the pasting flag and every other field are unchanged,
    nothing panics, no operation is recorded, and the event is reported
    as handled. *)
Theorem function_key_dropped_while_pasting
    (cfg : Config R) (key : ui.Key) (w : widget R) (tr : list Op) :
  pasting w = true ->
  ui.Mod key <> 0 \/ ui.Rune key < 0 ->
  handleKeyEvent cfg key (mkWorld w tr) = Some (true, mkWorld w tr).
Proof.
  intros Hp Hf.
  rewrite (pasting_key_run R Backspace inGraphicRanges cfg key w tr Hp).
  rewrite (isFuncKey_true key Hf). reflexivity.
Qed.

(** C9. A paste-end event in the normal state, with no paste-start before
    it, is processed as a completed paste: the handler does not look at the
    pasting flag, so the outcome is the one it has with the flag set. The
    text of the paste buffer (empty in every normal state that [Handle]
    reaches), passed through the quote function when the quoting predicate
    holds, is inserted at the dot; insertion tracking is reset and the event
    is reported as handled. *)
Theorem paste_end_in_normal_state
    (cfg : Config R) (w : widget R) (tr : list Op) (pre post : bytes) :
  pasting w = false ->
  Buffer (state w) = mkCodeBuffer (pre ++ post) (len pre) ->
  let text := if quotes cfg then Quote (pasteBuffer w) else pasteBuffer w in
  handlePasteSetting (init cfg) false (mkWorld w tr) =
    Some (true,
          mkWorld (pasted w pre text post)
                  (tr ++ [OpResetInserts; OpInsertAtDot text]))
  /\ handlePasteSetting (init cfg) false (mkWorld (set_pasting true w) tr) =
       handlePasteSetting (init cfg) false (mkWorld w tr).
Proof.
  intros _ Hb text. split.
  - apply paste_end_run. exact Hb.
  - rewrite (paste_end_run R Quote cfg w tr pre post Hb).
    rewrite (paste_end_run R Quote cfg (set_pasting true w) tr pre post Hb).
    reflexivity.
Qed.

(** C10. While pasting, no key event calls the submit callback: the trace
    is left as it was, and only the paste buffer can change. An unmodified
    Enter key is not a function key; its code point, the byte [0x0a], is
    appended to the paste buffer. *)
Theorem no_submit_while_pasting
    (cfg : Config R) (key : ui.Key) (w : widget R) (tr : list Op) :
  pasting w = true ->
  (exists buf,
     handleKeyEvent cfg key (mkWorld w tr) =
       Some (true, mkWorld (set_pasteBuffer buf w) tr))
  /\ handleKeyEvent cfg (ui.K 10) (mkWorld w tr) =
       Some (true, mkWorld (set_pasteBuffer (pasteBuffer w ++ [x0a]) w) tr).
Proof.
  intros Hp. split.
  - rewrite (pasting_key_run R Backspace inGraphicRanges cfg key w tr Hp).
    destruct (negb (ui.Mod key =? 0) || (ui.Rune key <? 0)).
    + exists (pasteBuffer w). destruct w; reflexivity.
    + eexists. reflexivity.
  - rewrite (pasting_key_run R Backspace inGraphicRanges cfg (ui.K 10) w tr Hp).
    reflexivity.
Qed.

End KeyEvents.

(** ** The invariant of the widget *)

Section Invariant.
Import codearea Selection Invariants.

Variable R : Type.
Variable Quote : bytes -> bytes.
Variable Backspace : Z.
Variable inGraphicRanges : Z -> bool.

Local Abbreviation handleKeyEvent := (handleKeyEvent R Backspace inGraphicRanges).
Local Abbreviation handlePasteSetting := (handlePasteSetting R Quote).
Local Abbreviation dispatch := (dispatch R Quote Backspace inGraphicRanges).
Local Abbreviation Handle := (Handle R Quote Backspace inGraphicRanges).
Local Abbreviation HandleAll := (HandleAll R Quote Backspace inGraphicRanges).
Local Abbreviation IsGraphic := (unicode.IsGraphic inGraphicRanges).

Lemma track_ok_reset (w : widget R) : track_ok (reset w).
Proof.
  unfold track_ok. cbn. split; [unfold len; cbn; lia | exists []; reflexivity].
Qed.









(** [Handle]: the overlay first, then the widget's own logic. *)
Lemma Handle_unfold (cfg : Config R) (e : term.Event) (w : widget R) (tr : list Op) :
  Handle cfg e (mkWorld w tr) =
    match overlay_of cfg e (state w) with
    | Some (true, s) => Some (true, mkWorld (set_state s w) tr)
    | Some (false, s) => dispatch (init cfg) e (mkWorld (set_state s w) tr)
    | None => None
    end.
Proof.
  unfold codearea.Handle, run_overlay, bind, call, get, ret, modify.
  cbn [init OverlayHandler self trace]. fold (overlay_of cfg).
  destruct (overlay_of cfg e (state w)) as [[[|] s] |]; reflexivity.
Qed.







End Invariant.

(** ** The overlay wrapper *)

Section Overlay.
Import clitypes.

Variable World : Type.
Variable Buffer : Type.

(** C5. For every base widget, overlay handler, event and size, the
    composite renders what the base renders, and on an event it asks the
    overlay first. If the overlay reports the event handled, so does the
    composite, and the world is left as the overlay left it: the outcome is
    the same whatever the base widget is, so no handling path of the base
    has run. The base is consulted only when the overlay reports the event
    not handled, and then on the world the overlay left. *)
Theorem overlay_has_first_refusal
    (W H : Type) (IW : Widget World Buffer W) (IH : Handler World H)
    (w : W) (h : H) (event : term.Event) (width height : Z) (world : World) :
  Render World Buffer (AddOverlayHandler World Buffer w h) width height world =
    Render World Buffer w width height world
  /\ (forall world',
        Handle World h event world = Some (true, world') ->
        Handle World (AddOverlayHandler World Buffer w h) event world =
          Some (true, world')
        /\ forall (W2 : Type) (IW2 : Widget World Buffer W2) (w2 : W2),
             Handle World (AddOverlayHandler World Buffer w2 h) event world =
               Some (true, world'))
  /\ (forall world',
        Handle World h event world = Some (false, world') ->
        Handle World (AddOverlayHandler World Buffer w h) event world =
          Handle World w event world').
Proof.
  split; [reflexivity |].
  split; intros world' Ho; [split; [| intros W2 IW2 w2] |];
    cbv [Handle Widget_Handler overlay_Widget overlay_Handle
         AddOverlayHandler overlay base] in *;
    rewrite Ho; reflexivity.
Qed.

End Overlay.

(** ** The interfaces *)

(** C7, as the code has it. [Prompt] has the three operations of an
    asynchronous source: [Trigger(force bool)], [Get] and [LateUpdates].
    [Highlighter] has two, [Get] -- which takes the code as its argument --
    and [LateUpdates]; it has no [Trigger]. Both deliver late updates on a
    channel of styled text. *)
Theorem prompt_has_trigger_highlighter_has_not :
  cli.has_async_source_shape cli.Prompt = true
  /\ cli.method_names cli.Prompt = ["Trigger"; "Get"; "LateUpdates"]%string
  /\ cli.method_names cli.Highlighter = ["Get"; "LateUpdates"]%string
  /\ cli.has_method cli.Highlighter "Trigger" = false
  /\ In (cli.mkMethod "Get" [cli.TString] [cli.TStyledText; cli.TErrors])
        cli.Highlighter
  /\ In (cli.mkMethod "Trigger" [cli.TBool] []) cli.Prompt.
Proof.
  repeat split; try reflexivity.
  - left. reflexivity.
  - left. reflexivity.
Qed.

(** The specification's statement fails on [Highlighter]. *)
Lemma highlighter_lacks_trigger :
  ~ (cli.has_async_source_shape cli.Highlighter = true
     /\ cli.has_async_source_shape cli.Prompt = true).
Proof. intros [H _]. discriminate H. Qed.

(** ** The properties at concrete inputs *)

Section Concrete.
Import codearea Selection Invariants Examples.

Local Abbreviation handleKey := (handleKeyEvent unit Backspace noRanges).

Lemma valid_ascii (b : byte) : Z_of_byte b <= 0x7F -> valid_char [b] = true.
Proof. intros H. apply Z.leb_le. exact H. Qed.

(** The text of the examples is valid. *)
Lemma ValidString_example_strings :
  ValidString (str "ex") /\ ValidString (str "example") /\
  ValidString (str "x") /\ ValidString (str "exchange") /\
  ValidString (str "caf") /\ ValidString (str "café").
Proof.
  repeat split.
  - exists [[x65]; [x78]]. split; reflexivity.
  - exists [[x65]; [x78]; [x61]; [x6d]; [x70]; [x6c]; [x65]]. split; reflexivity.
  - exists [[x78]]. split; reflexivity.
  - exists [[x65]; [x78]; [x63]; [x68]; [x61]; [x6e]; [x67]; [x65]].
    split; reflexivity.
  - exists [[x63]; [x61]; [x66]]. split; reflexivity.
  - exists [[x63]; [x61]; [x66]; [xc3; xa9]]. split; reflexivity.
Qed.



Lemma buffer_ok_cafe : buffer_ok (mkCodeBuffer (str "café") 5).
Proof.
  destruct ValidString_example_strings as (_ & _ & _ & _ & _ & H).
  split; [vm_compute; split; discriminate |]. split.
  - exact H.
  - apply ValidString_nil.
Qed.


Lemma track_ok_after_e : track_ok w_after_e.
Proof.
  split; [vm_compute; split; discriminate |]. exists []. reflexivity.
Qed.

(** C1 at a concrete input: after [e], the key [x] with the abbreviations
    [ex -> example] and [x -> exchange]. *)
Lemma graphic_key_expands_longest_abbreviation_witness :
  pasting w_after_e = false /\
  ui.Mod (ui.K 120) = 0 /\
  0 <= ui.Rune (ui.K 120) /\
  unicode.IsGraphic noRanges (ui.Rune (ui.K 120)) = true /\
  ui.Rune (ui.K 120) <> Backspace /\
  Buffer (state w_after_e) = mkCodeBuffer (str "e" ++ []) (len (str "e")) /\
  track_ok w_after_e /\
  expansion_claim unit Backspace noRanges true abbr_cfg (ui.K 120)
    w_after_e [] (str "e") [].
Proof.
  refine (conj eq_refl (conj eq_refl (conj _ (conj eq_refl (conj _
            (conj eq_refl (conj track_ok_after_e _))))))).
  - vm_compute. discriminate.
  - vm_compute. discriminate.
  - apply (graphic_key_expands_longest_abbreviation unit Backspace noRanges
             abbr_cfg (ui.K 120) w_after_e [] (str "e") []).
    + reflexivity.
    + reflexivity.
    + vm_compute. discriminate.
    + reflexivity.
    + vm_compute. discriminate.
    + reflexivity.
    + exact track_ok_after_e.
Defined.

(** The longest abbreviation wins: [e] then [x] gives [example], dot 7. *)
Example longest_match_example :
  buffer_of (run abbr_cfg (keys [101; 120]) (fresh [] 0)) =
    Some (str "example", 7).
Proof. vm_compute. reflexivity. Qed.

(** C1 as the specification states it, with every matching abbreviation a
    candidate, fails on an empty abbreviation: the pair [("", "X")] is
    selected by the statement, yet the key [a] is only inserted. *)
Lemma empty_abbreviation_is_not_expanded :
  pasting w_fresh = false /\
  ui.Mod (ui.K 97) = 0 /\
  0 <= ui.Rune (ui.K 97) /\
  unicode.IsGraphic noRanges (ui.Rune (ui.K 97)) = true /\
  ui.Rune (ui.K 97) <> Backspace /\
  Buffer (state w_fresh) = mkCodeBuffer ([] ++ []) (len []) /\
  track_ok w_fresh /\
  ~ expansion_claim unit Backspace noRanges false empty_abbr_cfg (ui.K 97)
      w_fresh [] [] [].
Proof.
  refine (conj eq_refl (conj eq_refl (conj _ (conj eq_refl (conj _
            (conj eq_refl (conj _ _))))))).
  - vm_compute. discriminate.
  - vm_compute. discriminate.
  - split; [vm_compute; split; discriminate | exists []; reflexivity].
  - intros [Hexp _].
    destruct (Hexp [] (str "X")) as (pre' & Epre & Hrun).
    + exists 0%nat. split; [reflexivity |]. split.
      * split; [exists (str "a"); reflexivity | discriminate].
      * intros j q Hj _. destruct j as [| [| j]]; try discriminate Hj.
        injection Hj as <-. split; [vm_compute; discriminate | lia].
    + rewrite app_nil_r in Epre. subst pre'.
      vm_compute in Hrun. discriminate Hrun.
Qed.

(** C2 at a concrete input: the keys [h], [i] pasted into the empty
    buffer, quoted. *)
Lemma paste_inserts_once_resets_twice_witness :
  pasting w_fresh = false /\
  pasteBuffer w_fresh = [] /\
  Buffer (state w_fresh) = mkCodeBuffer ([] ++ []) (len []) /\
  Forall (fun r => 0 <= r) [104; 105] /\
  paste_claim unit Backspace noRanges quote1 2 quoting_cfg [104; 105]
    w_fresh [] [] [].
Proof.
  assert (Hrs : Forall (fun r => 0 <= r) [104; 105]).
  { repeat constructor; vm_compute; discriminate. }
  refine (conj eq_refl (conj eq_refl (conj eq_refl (conj Hrs _)))).
  apply (paste_inserts_once_resets_twice unit quote1 Backspace noRanges
           quoting_cfg [104; 105] w_fresh [] [] []);
    [reflexivity | reflexivity | reflexivity | exact Hrs].
Defined.

(** The paste of [h], [i] with quoting: one insertion of ['hi'], after two
    resets of insertion tracking. *)
Example paste_quoting_example :
  buffer_of (run quoting_cfg (paste_events [104; 105]) (fresh [] 0)) =
    Some (str "'hi'", 4)
  /\ trace_of (run quoting_cfg (paste_events [104; 105]) (fresh [] 0)) =
       [OpResetInserts; OpResetInserts; OpInsertAtDot (str "'hi'")].
Proof. split; vm_compute; reflexivity. Qed.

(** C2 as the specification states it, with exactly one reset of insertion
    tracking for the whole paste, fails: paste-start resets it and
    paste-end resets it again. *)
Lemma paste_resets_tracking_twice :
  pasting w_fresh = false /\
  pasteBuffer w_fresh = [] /\
  Buffer (state w_fresh) = mkCodeBuffer ([] ++ []) (len []) /\
  Forall (fun r => 0 <= r) [104; 105] /\
  ~ paste_claim unit Backspace noRanges quote1 1 quoting_cfg [104; 105]
      w_fresh [] [] [].
Proof.
  refine (conj eq_refl (conj eq_refl (conj eq_refl (conj _ _)))).
  - repeat constructor; vm_compute; discriminate.
  - intros (t & Hrun & _ & Hcount).
    vm_compute in Hrun. injection Hrun as Ht. subst t.
    vm_compute in Hcount. discriminate Hcount.
Qed.

(** C3 at a concrete input: [café] with the dot at its end. *)
Lemma backspace_removes_one_code_point_witness :
  Backspace <> 10 /\
  pasting w_cafe = false /\
  buffer_ok (Buffer (state w_cafe)) /\
  exists c',
    handleKey plain_cfg (ui.K Backspace) (mkWorld w_cafe []) =
      Some (true, mkWorld (set_buffer c' (reset w_cafe)) ([] ++ [OpResetInserts]))
    /\ ((Dot (Buffer (state w_cafe)) = 0 /\ c' = Buffer (state w_cafe))
        \/ exists pre ch post,
             valid_char ch = true /\
             Content (Buffer (state w_cafe)) = pre ++ ch ++ post /\
             Dot (Buffer (state w_cafe)) = len pre + len ch /\
             c' = mkCodeBuffer (pre ++ post)
                    (Dot (Buffer (state w_cafe)) - len ch)).
Proof.
  assert (Hb : Backspace <> 10) by (vm_compute; discriminate).
  refine (conj Hb (conj eq_refl (conj buffer_ok_cafe _))).
  exact (backspace_removes_one_code_point unit Backspace noRanges plain_cfg
           w_cafe [] Hb eq_refl buffer_ok_cafe).
Defined.

(** Backspace removes the two bytes of [é]. *)
Example cafe_backspace_example :
  buffer_of (run plain_cfg (keys [Backspace]) (fresh (str "café") 5)) =
    Some (str "caf", 3).
Proof. vm_compute. reflexivity. Qed.




(** C6 at a concrete input: Enter on [café]. *)
Lemma enter_submits_once_witness :
  pasting w_cafe = false /\
  handleKey plain_cfg (ui.K 10) (mkWorld w_cafe []) =
    Some (true,
          mkWorld (reset w_cafe)
                  ([] ++ [OpResetInserts;
                          OpOnSubmit (Content (Buffer (state w_cafe)))]))
  /\ state (reset w_cafe) = state w_cafe
  /\ pasting (reset w_cafe) = pasting w_cafe
  /\ pasteBuffer (reset w_cafe) = pasteBuffer w_cafe.
Proof.
  refine (conj eq_refl _).
  exact (enter_submits_once unit Backspace noRanges plain_cfg w_cafe [] eq_refl).
Defined.

(** C8 at a concrete input: the Up key, a negative rune, in a paste. *)
Lemma function_key_dropped_while_pasting_witness :
  pasting w_pasting = true /\
  (ui.Mod (ui.K (-982)) <> 0 \/ ui.Rune (ui.K (-982)) < 0) /\
  handleKey plain_cfg (ui.K (-982)) (mkWorld w_pasting []) =
    Some (true, mkWorld w_pasting []).
Proof.
  assert (Hf : ui.Mod (ui.K (-982)) <> 0 \/ ui.Rune (ui.K (-982)) < 0)
    by (right; reflexivity).
  refine (conj eq_refl (conj Hf _)).
  exact (function_key_dropped_while_pasting unit Backspace noRanges plain_cfg
           (ui.K (-982)) w_pasting [] eq_refl Hf).
Defined.

(** C9 at a concrete input: paste-end on the fresh widget, with quoting. *)
Lemma paste_end_in_normal_state_witness :
  pasting w_cafe = false /\
  Buffer (state w_cafe) = mkCodeBuffer (str "café" ++ []) (len (str "café")) /\
  handlePasteSetting unit quote1 (init quoting_cfg) false (mkWorld w_cafe []) =
    Some (true,
          mkWorld (pasted w_cafe (str "café") (str "''") [])
                  ([] ++ [OpResetInserts; OpInsertAtDot (str "''")]))
  /\ handlePasteSetting unit quote1 (init quoting_cfg) false
       (mkWorld (set_pasting true w_cafe) []) =
     handlePasteSetting unit quote1 (init quoting_cfg) false (mkWorld w_cafe []).
Proof.
  refine (conj eq_refl (conj eq_refl _)).
  exact (paste_end_in_normal_state unit quote1 quoting_cfg w_cafe []
           (str "café") [] eq_refl eq_refl).
Defined.

(** C10 at a concrete input: Enter in a paste. *)
Lemma no_submit_while_pasting_witness :
  pasting w_pasting = true /\
  (exists buf,
     handleKey plain_cfg (ui.K 10) (mkWorld w_pasting []) =
       Some (true, mkWorld (set_pasteBuffer buf w_pasting) []))
  /\ handleKey plain_cfg (ui.K 10) (mkWorld w_pasting []) =
       Some (true,
             mkWorld (set_pasteBuffer (pasteBuffer w_pasting ++ [x0a]) w_pasting)
                     []).
Proof.
  refine (conj eq_refl _).
  exact (no_submit_while_pasting unit Backspace noRanges plain_cfg (ui.K 10)
           w_pasting [] eq_refl).
Defined.

End Concrete.

Section ConcreteOverlay.
Import clitypes Examples.

(** C5 at a concrete input: a base that counts the calls of its [Handle]
    in the world, under an overlay that handles every event. The count
    stays at 0. *)
Lemma overlay_has_first_refusal_witness :
  Handle nat greedy_overlay term.OtherEvent 0%nat = Some (true, 0%nat)
  /\ Handle nat (AddOverlayHandler nat unit counting_base greedy_overlay)
       term.OtherEvent 0%nat = Some (true, 0%nat)
  /\ Handle nat counting_base term.OtherEvent 0%nat = Some (false, 1%nat).
Proof.
  pose proof (overlay_has_first_refusal nat unit
                CountingBase GreedyOverlay _ _
                counting_base greedy_overlay
                term.OtherEvent 80 24 0%nat) as (_ & Hhandled & _).
  refine (conj eq_refl (conj _ eq_refl)).
  exact (proj1 (Hhandled 0%nat eq_refl)).
Defined.

End ConcreteOverlay.

(** * Further properties of the code *)

(** ** Backspace on arbitrary bytes *)

Lemma DecodeRune_size_bounds (s : bytes) :
  0 <= snd (utf8.DecodeRuneInString s) <= 4.
Proof.
  unfold utf8.DecodeRuneInString.
  repeat match goal with
  | |- context [if ?c then _ else _] => destruct c
  end; cbn [snd]; lia.
Qed.

Lemma scan_back_le (fuel : nat) (s : bytes) (start lim : Z) :
  utf8.scan_back fuel s start lim <= start.
Proof.
  revert start. induction fuel as [| fuel IH]; intros start; cbn [utf8.scan_back].
  - lia.
  - destruct (lim <=? start); [| lia].
    destruct (utf8.RuneStart (index s start)); [lia |].
    specialize (IH (start - 1)). lia.
Qed.

(** On a non-empty string [DecodeLastRuneInString] reports a size between
    1 and 4 that does not exceed the length. *)
Lemma DecodeLastRune_size_bounds (s : bytes) :
  s <> [] ->
  1 <= snd (utf8.DecodeLastRuneInString s) <= 4 /\
  snd (utf8.DecodeLastRuneInString s) <= len s.
Proof.
  intros Hs.
  assert (Hlen : 1 <= len s) by (destruct s; [congruence | unfold len; cbn; lia]).
  unfold utf8.DecodeLastRuneInString.
  replace (len s =? 0) with false by (symmetry; apply Z.eqb_neq; lia).
  destruct (Z_of_byte (index s (len s - 1)) <? utf8.RuneSelf); [cbn [snd]; lia |].
  set (lim := if len s - utf8.UTFMax <? 0 then 0 else len s - utf8.UTFMax).
  pose proof (scan_back_le (Z.to_nat utf8.UTFMax) s (len s - 1 - 1) lim) as Hscan.
  set (st0 := utf8.scan_back (Z.to_nat utf8.UTFMax) s (len s - 1 - 1) lim) in *.
  set (start := if st0 <? 0 then 0 else st0).
  assert (Hstart : 0 <= start < len s).
  { subst start. destruct (Z.ltb_spec st0 0); lia. }
  pose proof (DecodeRune_size_bounds (slice s start (len s))) as Hdec.
  destruct (utf8.DecodeRuneInString (slice s start (len s))) as [r size].
  cbn [snd] in Hdec.
  destruct (Z.eqb_spec (start + size) (len s)); cbn [negb snd]; lia.
Qed.

Lemma DecodeLastRune_size_nil : snd (utf8.DecodeLastRuneInString []) = 0.
Proof. reflexivity. Qed.

Section BackspaceAny.
Import codearea Invariants Coverage.

Variable R : Type.
Variable Backspace : Z.
Variable inGraphicRanges : Z -> bool.

(** The deletion on any text before the dot: it cuts off between one and
    four bytes, none when there is nothing before the dot. *)
Lemma delete_before_dot_any (pre post : bytes) (rest : R) :
  exists keep cut,
    pre = keep ++ cut /\
    len cut <= 4 /\
    (pre <> [] -> 1 <= len cut) /\
    (pre = [] -> cut = []) /\
    delete_before_dot R (mkState (mkCodeBuffer (pre ++ post) (len pre)) rest) =
      Some (mkState (mkCodeBuffer (keep ++ post) (len keep)) rest).
Proof.
  set (chop := snd (utf8.DecodeLastRuneInString pre)).
  assert (Hchop : 0 <= chop <= len pre /\ chop <= 4 /\ (pre <> [] -> 1 <= chop)
                  /\ (pre = [] -> chop = 0)).
  { destruct pre as [| b pre'].
    - subst chop. cbn. unfold len. cbn. repeat split; (lia || congruence).
    - destruct (DecodeLastRune_size_bounds (b :: pre')) as [H1 H2];
        [discriminate |].
      fold chop in H1, H2. repeat split; try lia. discriminate. }
  destruct Hchop as (Hr & H4 & Hpos & Hzero).
  destruct (split_at pre (len pre - chop)) as [Hsplit Hlen]; [lia |].
  set (keep := firstn (Z.to_nat (len pre - chop)) pre) in *.
  set (cut := skipn (Z.to_nat (len pre - chop)) pre) in *.
  assert (Hcut : len cut = chop).
  { apply (f_equal len) in Hsplit. rewrite len_app in Hsplit. lia. }
  exists keep, cut. split; [exact Hsplit |]. split; [lia |].
  split; [intros H; specialize (Hpos H); lia |].
  split.
  { intros H. apply len_zero. rewrite Hcut. apply Hzero. exact H. }
  unfold delete_before_dot. cbn [Buffer Content Dot Rest].
  rewrite slice_to_app, slice_from_app. fold chop.
  rewrite Hlen.
  replace (pre ++ post) with (keep ++ cut ++ post)
    by (rewrite app_assoc, <- Hsplit; reflexivity).
  rewrite slice_to_app. reflexivity.
Qed.

End BackspaceAny.

(** ** What every event keeps *)

Section Steps.
Import codearea Selection Invariants Coverage.

Variable R : Type.
Variable Quote : bytes -> bytes.
Variable Backspace : Z.
Variable inGraphicRanges : Z -> bool.

Local Abbreviation handleKeyEvent := (handleKeyEvent R Backspace inGraphicRanges).
Local Abbreviation dispatch := (dispatch R Quote Backspace inGraphicRanges).
Local Abbreviation dispatchAll := (dispatchAll R Quote Backspace inGraphicRanges).
Local Abbreviation IsGraphic := (unicode.IsGraphic inGraphicRanges).

Lemma in_range_app (pre post : bytes) :
  in_range (mkCodeBuffer (pre ++ post) (len pre)).
Proof.
  unfold in_range. cbn [Content Dot]. rewrite len_app.
  pose proof (len_nonneg pre). pose proof (len_nonneg post). lia.
Qed.

Lemma in_range_split (c : CodeBuffer) :
  in_range c -> exists pre post, c = mkCodeBuffer (pre ++ post) (len pre).
Proof.
  intros H. destruct c as [content dot]. unfold in_range in H. cbn in H.
  destruct (split_at content dot H) as [Hs Hd].
  exists (firstn (Z.to_nat dot) content), (skipn (Z.to_nat dot) content).
  rewrite <- Hs, <- Hd. reflexivity.
Qed.

Lemma after_dot_app (pre post : bytes) :
  after_dot (mkCodeBuffer (pre ++ post) (len pre)) = post.
Proof. unfold after_dot. cbn [Content Dot]. apply skipn_len_app. Qed.

Lemma Safe_reset (w : widget R) : Safe w -> Safe (reset w).
Proof.
  intros (Hb & _ & Hpb & Hn). split; [exact Hb |].
  split; [apply track_ok_reset |]. split; [exact Hpb | exact Hn].
Qed.

Lemma submissions_app (a b : list Op) :
  submissions (a ++ b) = submissions a ++ submissions b.
Proof. unfold submissions. apply flat_map_app. Qed.

(** One event, handled by the widget itself, on a widget that is [Safe]:
    no panic, and what the event leaves as it was. *)
Lemma dispatch_safe (cfg : Config R) (e : term.Event) (w : widget R)
    (tr : list Op) (pre post : bytes) :
  Safe w ->
  Buffer (state w) = mkCodeBuffer (pre ++ post) (len pre) ->
  exists b w' t pre',
    dispatch (init cfg) e (mkWorld w tr) = Some (b, mkWorld w' (tr ++ t))
    /\ Safe w'
    /\ Buffer (state w') = mkCodeBuffer (pre' ++ post) (len pre')
    /\ Rest (state w') = Rest (state w)
    /\ pasting w' = next_pasting e (pasting w)
    /\ submissions t = (if is_submit e (pasting w) then [pre ++ post] else []).
Proof.
  intros HS Hbuf. pose proof HS as (Hr & Ht & Hpb & Hn).
  destruct e as [key | [|] |]; cbn [codearea.dispatch next_pasting is_submit].
  - (* a key *)
    destruct (pasting w) eqn:Hp; cbn [negb andb].
    { exists true. eexists. exists [], pre. rewrite app_nil_r.
      split; [apply (pasting_key_run R Backspace inGraphicRanges); exact Hp |].
      destruct (negb (ui.Mod key =? 0) || (ui.Rune key <? 0)).
      - exact (conj HS (conj Hbuf (conj eq_refl (conj Hp eq_refl)))).
      - refine (conj _ (conj Hbuf (conj eq_refl (conj Hp eq_refl)))).
        split; [exact Hr |]. split; [exact Ht |]. split.
        + cbn. apply ValidString_app; [exact Hpb |].
          apply ValidString_char, EncodeRune_valid.
        + cbn. rewrite Hp. discriminate. }
    destruct (ui.Key_eqb key (ui.K 10)) eqn:H10.
    { apply Key_eqb_eq in H10. subst key.
      exists true, (reset w),
        [OpResetInserts; OpOnSubmit (Content (Buffer (state w)))], pre.
      split; [apply (enter_run R Backspace inGraphicRanges); exact Hp |].
      split; [apply Safe_reset; exact HS |].
      split; [exact Hbuf |]. split; [reflexivity |]. split; [exact Hp |].
      rewrite Hbuf. reflexivity. }
    destruct (ui.Key_eqb key (ui.K Backspace)) eqn:Hbs.
    { apply Key_eqb_eq in Hbs. subst key.
      assert (Hne : Backspace <> 10).
      { intros E. rewrite E in H10. discriminate H10. }
      destruct (delete_before_dot_any R pre post (Rest (state w)))
        as (keep & cut & _ & _ & _ & _ & Hd).
      exists true,
        (set_state (mkState (mkCodeBuffer (keep ++ post) (len keep))
                            (Rest (state w))) (reset w)),
        [OpResetInserts], keep.
      split.
      - apply (backspace_run R Backspace inGraphicRanges (init cfg) w tr _ Hne Hp).
        destruct w as [[c rest] ins last p pb]. cbn in Hbuf |- *. subst c.
        exact Hd.
      - refine (conj _ (conj eq_refl (conj eq_refl (conj Hp eq_refl)))).
        split; [apply in_range_app |]. split; [apply (track_ok_reset R w) |].
        split; [exact Hpb | apply HS]. }
    destruct (negb (ui.Mod key =? 0) || (ui.Rune key <? 0)
              || negb (IsGraphic (ui.Rune key))) eqn:Hother.
    { exists false, (reset w), [OpResetInserts], pre.
      split; [apply (other_key_run R Backspace inGraphicRanges); assumption |].
      split; [apply Safe_reset; exact HS |].
      exact (conj Hbuf (conj eq_refl (conj Hp eq_refl))). }
    apply orb_false_iff in Hother. destruct Hother as [Hf Hg].
    apply orb_false_iff in Hf. destruct Hf as [Hm Hrune].
    apply negb_false_iff in Hm, Hg. apply Z.eqb_eq in Hm. apply Z.ltb_ge in Hrune.
    assert (Hb : ui.Rune key <> Backspace).
    { intros E. destruct key as [r m]. cbn in *. subst.
      unfold ui.Key_eqb in Hbs. cbn in Hbs. rewrite Z.eqb_refl in Hbs.
      discriminate. }
    set (s := utf8.EncodeRune (ui.Rune key)).
    set (continuing := CodeBuffer_eqb (lastCodeBuffer w) (Buffer (state w))).
    set (ins := (if continuing then inserts w else []) ++ s).
    pose proof (tracked_suffix R w pre post s Ht Hbuf) as Hsuf.
    fold continuing ins in Hsuf.
    destruct (pick_spec ins (abbreviations cfg)) as [[_ Hsel] | [_ Hnone]].
    + destruct (pick (abbreviations cfg) ins) as [a f] eqn:Epick.
      destruct (graphic_key_expands R Backspace inGraphicRanges cfg key w tr
                  pre post a f Hp Hm Hrune Hg Hb Hbuf Ht Hsel)
        as (pre' & Epre & Hrun).
      exists true, (expanded w pre' f post),
        ((if continuing then [] else [OpResetInserts]) ++
         [OpInsertAtDot s; OpResetInserts]), (pre' ++ f).
      split.
      { rewrite Hrun. fold s continuing. rewrite <- !app_assoc. reflexivity. }
      split.
      { split; [cbn [expanded state Buffer]; rewrite app_assoc, <- len_app;
                apply in_range_app |].
        split; [apply (track_ok_reset R (expanded w pre' f post)) |].
        split; [exact Hpb | apply HS]. }
      split; [cbn [expanded state Buffer]; rewrite <- app_assoc, len_app;
              reflexivity |].
      split; [reflexivity |]. split; [exact Hp |].
      destruct continuing; reflexivity.
    + exists true, (typed w pre s post ins),
        ((if continuing then [] else [OpResetInserts]) ++ [OpInsertAtDot s]),
        (pre ++ s).
      split.
      { rewrite (graphic_key_inserts R Backspace inGraphicRanges cfg key w tr
                   pre post Hp Hm Hrune Hg Hb Hbuf Hnone).
        fold s continuing ins. reflexivity. }
      split.
      { split; [cbn [typed state Buffer]; rewrite app_assoc, <- len_app;
                apply in_range_app |].
        split.
        - unfold track_ok. cbn [typed lastCodeBuffer inserts Content Dot].
          rewrite app_assoc, <- len_app, firstn_len_app, !len_app.
          pose proof (len_nonneg pre). pose proof (len_nonneg s).
          pose proof (len_nonneg post). split; [lia | exact Hsuf].
        - split; [exact Hpb | apply HS]. }
      split; [cbn [typed state Buffer]; rewrite <- app_assoc, len_app;
              reflexivity |].
      split; [reflexivity |]. split; [exact Hp |].
      destruct continuing; reflexivity.
  - (* paste-start *)
    exists true, (set_pasting true (reset w)), [OpResetInserts], pre.
    split; [reflexivity |]. split.
    { split; [exact Hr |]. split; [apply (track_ok_reset R w) |].
      split; [exact Hpb |]. cbn. discriminate. }
    exact (conj Hbuf (conj eq_refl (conj eq_refl eq_refl))).
  - (* paste-end *)
    set (text := if quotes cfg then Quote (pasteBuffer w) else pasteBuffer w).
    exists true, (pasted w pre text post),
      [OpResetInserts; OpInsertAtDot text], (pre ++ text).
    split; [apply (paste_end_run R Quote cfg w tr pre post Hbuf) |].
    split.
    { split; [cbn [pasted state Buffer]; rewrite app_assoc, <- len_app;
              apply in_range_app |].
      split; [apply (track_ok_reset R (pasted w pre text post)) |].
      split; [apply ValidString_nil | reflexivity]. }
    split; [cbn [pasted state Buffer]; rewrite <- app_assoc, len_app;
            reflexivity |].
    exact (conj eq_refl (conj eq_refl eq_refl)).
  - (* any other event *)
    exists false, w, [], pre. rewrite app_nil_r.
    exact (conj eq_refl (conj HS (conj Hbuf (conj eq_refl (conj eq_refl eq_refl))))).
Qed.

(** Any sequence of events handled by the widget itself. *)
Lemma dispatchAll_safe (cfg : Config R) (evs : list term.Event) :
  forall (w : widget R) (tr : list Op) (pre post : bytes),
    Safe w ->
    Buffer (state w) = mkCodeBuffer (pre ++ post) (len pre) ->
    exists w' t pre',
      dispatchAll cfg evs (mkWorld w tr) = Some (tt, mkWorld w' (tr ++ t))
      /\ Safe w'
      /\ Buffer (state w') = mkCodeBuffer (pre' ++ post) (len pre')
      /\ Rest (state w') = Rest (state w)
      /\ pasting w' = last_pasting evs (pasting w)
      /\ List.length (submissions t) = count_submits evs (pasting w).
Proof.
  induction evs as [| e evs IH]; intros w tr pre post HS Hbuf.
  - exists w, [], pre. rewrite app_nil_r.
    exact (conj eq_refl (conj HS (conj Hbuf (conj eq_refl (conj eq_refl eq_refl))))).
  - destruct (dispatch_safe cfg e w tr pre post HS Hbuf)
      as (b & w1 & t1 & pre1 & Hrun & HS1 & Hbuf1 & Hrest1 & Hp1 & Hsub1).
    destruct (IH w1 (tr ++ t1) pre1 post HS1 Hbuf1)
      as (w' & t & pre' & Hrun' & HS' & Hbuf' & Hrest' & Hp' & Hsub').
    exists w', (t1 ++ t), pre'.
    split.
    { cbn [codearea.dispatchAll]. unfold bind. rewrite Hrun, Hrun', app_assoc.
      reflexivity. }
    split; [exact HS' |]. split; [exact Hbuf' |].
    split; [congruence |].
    split; [cbn [last_pasting]; congruence |].
    cbn [count_submits]. rewrite submissions_app, length_app, Hsub', Hsub1, Hp1.
    destruct (is_submit e (pasting w)); reflexivity.
Qed.

Local Abbreviation Handle := (Handle R Quote Backspace inGraphicRanges).
Local Abbreviation HandleAll := (HandleAll R Quote Backspace inGraphicRanges).

Lemma Safe_set_state (w : widget R) (s : State R) :
  Safe w -> in_range (Buffer s) -> Safe (set_state s w).
Proof.
  intros (_ & Ht & Hpb & Hn) Hb. split; [exact Hb |].
  split; [exact Ht |]. split; [exact Hpb | exact Hn].
Qed.

(** One call of [Handle] under an overlay that returns and keeps the dot
    within the content. *)
Lemma Handle_safe (cfg : Config R) (e : term.Event) (W : World R) :
  overlay_total (overlay_of cfg) ->
  overlay_keeps_range (overlay_of cfg) ->
  Safe (self W) ->
  exists b W', Handle cfg e W = Some (b, W') /\ Safe (self W').
Proof.
  intros Htot Hkeep HS. destruct W as [w tr]. cbn [self] in HS.
  rewrite (Handle_unfold R Quote Backspace inGraphicRanges).
  destruct (Htot e (state w)) as (b & s & Eo). rewrite Eo.
  assert (HS' : Safe (set_state s w)).
  { apply Safe_set_state; [exact HS |].
    apply (Hkeep e (state w) b s); [apply HS | exact Eo]. }
  destruct b.
  - eexists _, _. split; [reflexivity | exact HS'].
  - destruct (in_range_split (Buffer (state (set_state s w))))
      as (pre & post & Hbuf); [apply HS' |].
    destruct (dispatch_safe cfg e (set_state s w) tr pre post HS' Hbuf)
      as (b & w' & t & pre' & Hrun & HS'' & _).
    rewrite Hrun. eexists _, _. split; [reflexivity | exact HS''].
Qed.

Lemma HandleAll_safe (cfg : Config R) (evs : list term.Event) :
  overlay_total (overlay_of cfg) ->
  overlay_keeps_range (overlay_of cfg) ->
  forall W, Safe (self W) ->
    exists W', HandleAll cfg evs W = Some (tt, W') /\ Safe (self W').
Proof.
  intros Htot Hkeep. induction evs as [| e evs IH]; intros W HS.
  - exists W. split; [reflexivity | exact HS].
  - destruct (Handle_safe cfg e W Htot Hkeep HS) as (b & W1 & Hrun & HS1).
    destruct (IH W1 HS1) as (W' & Hrun' & HS').
    exists W'. split; [| exact HS'].
    cbn [codearea.HandleAll]. unfold bind. rewrite Hrun. exact Hrun'.
Qed.

Lemma Safe_NewWithState (st : State R) :
  in_range (Buffer st) -> Safe (NewWithState st).
Proof.
  intros Hb. split; [exact Hb |]. split; [| split].
  - unfold track_ok. cbn. split; [unfold len; cbn; lia | exists []; reflexivity].
  - apply ValidString_nil.
  - reflexivity.
Qed.

End Steps.

(** ** Sequences of events *)

Section Sequences.
Import codearea Selection Invariants Coverage.

Variable R : Type.
Variable Quote : bytes -> bytes.
Variable Backspace : Z.
Variable inGraphicRanges : Z -> bool.

Local Abbreviation handleKeyEvent := (handleKeyEvent R Backspace inGraphicRanges).
Local Abbreviation dispatchAll := (dispatchAll R Quote Backspace inGraphicRanges).
Local Abbreviation HandleAll := (HandleAll R Quote Backspace inGraphicRanges).
Local Abbreviation IsGraphic := (unicode.IsGraphic inGraphicRanges).

(** X1. Backspace in the normal state never panics when the dot is within
    the content, whatever the bytes: valid UTF-8 or not, it cuts off
    between one and four bytes that end at the dot (none when the dot is at
    0), moves the dot back by as many, and leaves the text after the dot
    alone. *)
Theorem backspace_cuts_one_to_four_bytes
    (cfg : Config R) (w : widget R) (tr : list Op) (pre post : bytes) :
  Backspace <> 10 ->
  pasting w = false ->
  Buffer (state w) = mkCodeBuffer (pre ++ post) (len pre) ->
  exists keep cut,
    pre = keep ++ cut /\
    len cut <= 4 /\
    (pre <> [] -> 1 <= len cut) /\
    (pre = [] -> cut = []) /\
    handleKeyEvent cfg (ui.K Backspace) (mkWorld w tr) =
      Some (true,
            mkWorld (set_buffer (mkCodeBuffer (keep ++ post) (len keep)) (reset w))
                    (tr ++ [OpResetInserts])).
Proof.
  intros Hb Hp Hbuf.
  destruct (delete_before_dot_any R pre post (Rest (state w)))
    as (keep & cut & Hsplit & H4 & H1 & H0 & Hd).
  exists keep, cut. repeat (split; [assumption |]).
  apply (backspace_run R Backspace inGraphicRanges cfg w tr _ Hb Hp).
  destruct w as [[c rest] ins last p pb]. cbn in Hbuf |- *. subst c. exact Hd.
Qed.

(** X2. Typing a graphic key that expands no abbreviation and then
    Backspace restores the buffer: content and dot are what they were, on
    any bytes, and the widget is left with fresh insertion tracking. *)
Theorem type_then_backspace_restores_buffer
    (cfg : Config R) (r : Z) (w : widget R) (tr : list Op) (pre post : bytes) :
  Backspace <> 10 ->
  pasting w = false ->
  0 <= r ->
  IsGraphic r = true ->
  r <> Backspace ->
  Buffer (state w) = mkCodeBuffer (pre ++ post) (len pre) ->
  no_candidate true (abbreviations cfg)
    ((if CodeBuffer_eqb (lastCodeBuffer w) (Buffer (state w))
      then inserts w else []) ++ utf8.EncodeRune r) ->
  exists tr',
    dispatchAll cfg (keys [r; Backspace]) (mkWorld w tr) =
      Some (tt, mkWorld (reset w) tr').
Proof.
  intros Hne Hp Hr Hg Hb Hbuf Hnone.
  set (s := utf8.EncodeRune r) in *.
  set (ins := (if CodeBuffer_eqb (lastCodeBuffer w) (Buffer (state w))
               then inserts w else []) ++ s) in *.
  eexists.
  cbn [keys map codearea.dispatchAll dispatch]. unfold bind at 1.
  rewrite (graphic_key_inserts R Backspace inGraphicRanges cfg (ui.K r) w tr
             pre post Hp eq_refl Hr Hg Hb Hbuf Hnone).
  cbn [ui.K ui.Rune]. fold s ins.
  unfold bind at 1.
  rewrite (backspace_run R Backspace inGraphicRanges (init cfg)
             (typed w pre s post ins) _
             (mkState (mkCodeBuffer (pre ++ post) (len pre)) (Rest (state w)))
             Hne Hp).
  - cbn [ret]. destruct w as [[c rest] ins0 last p pb]. cbn in Hbuf. subst c.
    reflexivity.
  - cbn [typed state]. apply delete_before_dot_char. apply EncodeRune_valid.
Qed.

(** X3. The widget's own handling of any sequence of events, on a widget
    with the dot within the content and sound insertion tracking, never
    panics and only edits before the dot: the text after the dot and the
    other fields of the state are what they were, and the dot is still
    within the content. *)
Theorem own_handling_edits_before_dot_only
    (cfg : Config R) (evs : list term.Event) (w : widget R) (tr : list Op) :
  Safe w ->
  exists W',
    dispatchAll cfg evs (mkWorld w tr) = Some (tt, W')
    /\ in_range (Buffer (state (self W')))
    /\ after_dot (Buffer (state (self W'))) = after_dot (Buffer (state w))
    /\ Rest (state (self W')) = Rest (state w).
Proof.
  intros HS.
  destruct (in_range_split (Buffer (state w))) as (pre & post & Hbuf);
    [apply HS |].
  destruct (dispatchAll_safe R Quote Backspace inGraphicRanges cfg evs w tr
              pre post HS Hbuf)
    as (w' & t & pre' & Hrun & HS' & Hbuf' & Hrest & _).
  exists (mkWorld w' (tr ++ t)). split; [exact Hrun |].
  cbn [self]. split; [apply HS' |]. split; [| exact Hrest].
  rewrite Hbuf', Hbuf, !after_dot_app. reflexivity.
Qed.

(** X4. After any sequence of events handled by the widget itself, the
    widget is in the middle of a paste exactly when the last paste event
    of the sequence was a paste-start (or, without any, when it was so
    before); outside a paste the paste buffer is empty, and in a paste it
    holds valid UTF-8 whatever keys arrived. *)
Theorem pasting_flag_follows_last_paste_event
    (cfg : Config R) (evs : list term.Event) (w : widget R) (tr : list Op) :
  Safe w ->
  exists W',
    dispatchAll cfg evs (mkWorld w tr) = Some (tt, W')
    /\ pasting (self W') = last_pasting evs (pasting w)
    /\ (pasting (self W') = false -> pasteBuffer (self W') = [])
    /\ ValidString (pasteBuffer (self W')).
Proof.
  intros HS.
  destruct (in_range_split (Buffer (state w))) as (pre & post & Hbuf);
    [apply HS |].
  destruct (dispatchAll_safe R Quote Backspace inGraphicRanges cfg evs w tr
              pre post HS Hbuf)
    as (w' & t & pre' & Hrun & HS' & _ & _ & Hp & _).
  exists (mkWorld w' (tr ++ t)). split; [exact Hrun |].
  cbn [self]. split; [exact Hp |]. split; apply HS'.
Qed.

(** X5. Over any sequence of events handled by the widget itself, the
    submit callback is called once for each unmodified Enter key received
    outside a paste, and by nothing else. *)
Theorem submit_called_once_per_enter_outside_paste
    (cfg : Config R) (evs : list term.Event) (w : widget R) (tr : list Op) :
  Safe w ->
  exists w' t,
    dispatchAll cfg evs (mkWorld w tr) = Some (tt, mkWorld w' (tr ++ t))
    /\ List.length (submissions t) = count_submits evs (pasting w).
Proof.
  intros HS.
  destruct (in_range_split (Buffer (state w))) as (pre & post & Hbuf);
    [apply HS |].
  destruct (dispatchAll_safe R Quote Backspace inGraphicRanges cfg evs w tr
              pre post HS Hbuf)
    as (w' & t & pre' & Hrun & _ & _ & _ & _ & Hsub).
  exists w', t. split; [exact Hrun | exact Hsub].
Qed.

(** X6. [Handle] never panics: from a new widget whose dot is within the
    content, under any abbreviations and any quote function, and under an
    overlay that returns and keeps the dot within the content, every
    sequence of events is handled to the end, and the dot is within the
    content and insertion tracking is sound afterwards. *)
Theorem Handle_never_panics
    (cfg : Config R) (st : State R) (tr : list Op) (evs : list term.Event) :
  in_range (Buffer st) ->
  overlay_total (overlay_of cfg) ->
  overlay_keeps_range (overlay_of cfg) ->
  exists W',
    HandleAll cfg evs (mkWorld (NewWithState st) tr) = Some (tt, W')
    /\ in_range (Buffer (state (self W')))
    /\ track_ok (self W').
Proof.
  intros Hr Htot Hkeep.
  destruct (HandleAll_safe R Quote Backspace inGraphicRanges cfg evs Htot Hkeep
              (mkWorld (NewWithState st) tr) (Safe_NewWithState R st Hr))
    as (W' & Hrun & HS').
  exists W'. split; [exact Hrun |]. split; apply HS'.
Qed.

End Sequences.

(** ** Typing and pasting *)

Section Typing.
Import codearea Selection Invariants Coverage.

Variable R : Type.
Variable Quote : bytes -> bytes.
Variable Backspace : Z.
Variable inGraphicRanges : Z -> bool.

Local Abbreviation handleKeyEvent := (handleKeyEvent R Backspace inGraphicRanges).
Local Abbreviation dispatchAll := (dispatchAll R Quote Backspace inGraphicRanges).
Local Abbreviation Handle := (Handle R Quote Backspace inGraphicRanges).
Local Abbreviation HandleAll := (HandleAll R Quote Backspace inGraphicRanges).
Local Abbreviation IsGraphic := (unicode.IsGraphic inGraphicRanges).

Lemma set_state_same (w : widget R) : set_state (state w) w = w.
Proof. destruct w; reflexivity. Qed.

(** Without an overlay [Handle] is the widget's own logic. *)
Lemma Handle_without_overlay (cfg : Config R) (e : term.Event) (W : World R) :
  OverlayHandler cfg = None ->
  Handle cfg e W = dispatch R Quote Backspace inGraphicRanges (init cfg) e W.
Proof.
  intros Ho. destruct W as [w tr].
  rewrite (Handle_unfold R Quote Backspace inGraphicRanges).
  unfold overlay_of. rewrite Ho. cbn [DummyHandler].
  rewrite set_state_same. reflexivity.
Qed.

Lemma HandleAll_without_overlay (cfg : Config R) (evs : list term.Event) (W : World R) :
  OverlayHandler cfg = None ->
  HandleAll cfg evs W = dispatchAll cfg evs W.
Proof.
  intros Ho. revert W. induction evs as [| e evs IH]; intros W.
  - reflexivity.
  - cbn [codearea.HandleAll codearea.dispatchAll]. unfold bind.
    rewrite (Handle_without_overlay cfg e W Ho).
    destruct (dispatch _ _ _ _ _ _ W) as [[b W1] |]; [apply IH | reflexivity].
Qed.

Lemma no_candidate_nil (b : bool) (ins : bytes) : no_candidate b [] ins.
Proof. intros q []. Qed.

(** Graphic keys typed one after the other, with no abbreviation
    configured. *)
Lemma typing_run (cfg : Config R) (rs : list Z) :
  abbreviations cfg = [] ->
  Forall (fun r => 0 <= r /\ IsGraphic r = true /\ r <> Backspace) rs ->
  forall (w : widget R) (tr : list Op) (pre post : bytes),
    pasting w = false ->
    Buffer (state w) = mkCodeBuffer (pre ++ post) (len pre) ->
    exists w' tr',
      dispatchAll cfg (keys rs) (mkWorld w tr) = Some (tt, mkWorld w' tr')
      /\ Buffer (state w') =
           mkCodeBuffer (pre ++ concat (map utf8.EncodeRune rs) ++ post)
                        (len pre + len (concat (map utf8.EncodeRune rs)))
      /\ Rest (state w') = Rest (state w)
      /\ pasting w' = false
      /\ pasteBuffer w' = pasteBuffer w.
Proof.
  intros Habbr Hrs. induction Hrs as [| r rs (Hr & Hg & Hb) _ IH];
    intros w tr pre post Hp Hbuf.
  - exists w, tr. cbn [keys map concat codearea.dispatchAll].
    split; [reflexivity |]. rewrite Hbuf. cbn [app]. unfold len at 2. cbn.
    rewrite Z.add_0_r. auto.
  - set (s := utf8.EncodeRune r).
    set (ins := (if CodeBuffer_eqb (lastCodeBuffer w) (Buffer (state w))
                 then inserts w else []) ++ s).
    assert (Hnone : no_candidate true (abbreviations cfg) ins)
      by (rewrite Habbr; apply no_candidate_nil).
    pose proof (graphic_key_inserts R Backspace inGraphicRanges cfg (ui.K r) w tr
                  pre post Hp eq_refl Hr Hg Hb Hbuf Hnone) as Hrun.
    cbn [ui.K ui.Rune] in Hrun. fold s ins in Hrun.
    match type of Hrun with
    | _ = Some (_, mkWorld _ ?t) =>
        destruct (IH (typed w pre s post ins) t (pre ++ s) post Hp)
          as (w' & tr' & Hrun' & Hbuf' & Hrest' & Hp' & Hpb')
    end.
    { cbn [typed state Buffer]. rewrite <- app_assoc, len_app. reflexivity. }
    exists w', tr'. split.
    { cbn [keys map codearea.dispatchAll dispatch]. unfold bind at 1.
      rewrite Hrun. exact Hrun'. }
    split.
    { rewrite Hbuf'. cbn [map concat]. fold s.
      rewrite !len_app, <- !app_assoc. f_equal. lia. }
    split; [exact Hrest' |]. split; [exact Hp' | exact Hpb'].
Qed.

(** X7. With no overlay and no abbreviation configured, graphic keys typed
    one after the other in the normal state insert the UTF-8 encodings of
    their runes at the dot, in the order typed; the dot ends after the last
    one, and the text around is unchanged. *)
Theorem typing_inserts_encodings_in_order
    (cfg : Config R) (rs : list Z) (w : widget R) (tr : list Op)
    (pre post : bytes) :
  OverlayHandler cfg = None ->
  abbreviations cfg = [] ->
  Forall (fun r => 0 <= r /\ IsGraphic r = true /\ r <> Backspace) rs ->
  pasting w = false ->
  Buffer (state w) = mkCodeBuffer (pre ++ post) (len pre) ->
  exists W',
    HandleAll cfg (keys rs) (mkWorld w tr) = Some (tt, W')
    /\ Buffer (state (self W')) =
         mkCodeBuffer (pre ++ concat (map utf8.EncodeRune rs) ++ post)
                      (len pre + len (concat (map utf8.EncodeRune rs)))
    /\ Rest (state (self W')) = Rest (state w).
Proof.
  intros Ho Habbr Hrs Hp Hbuf.
  destruct (typing_run cfg rs Habbr Hrs w tr pre post Hp Hbuf)
    as (w' & tr' & Hrun & Hbuf' & Hrest & _).
  exists (mkWorld w' tr'). rewrite (HandleAll_without_overlay cfg _ _ Ho).
  split; [exact Hrun |]. split; [exact Hbuf' | exact Hrest].
Qed.

(** Keys of any kind while pasting: function keys are dropped, the others
    collected. *)
Lemma any_keys_while_pasting (cfg : Config R) (ks : list ui.Key) :
  forall (w : widget R) (tr : list Op),
    pasting w = true ->
    dispatchAll cfg (key_events ks) (mkWorld w tr) =
      Some (tt, mkWorld (set_pasteBuffer (pasteBuffer w ++ paste_text ks) w) tr).
Proof.
  induction ks as [| k ks IH]; intros w tr Hp.
  - cbn. rewrite app_nil_r. destruct w; reflexivity.
  - cbn [key_events map codearea.dispatchAll dispatch]. unfold bind at 1.
    rewrite (pasting_key_run R Backspace inGraphicRanges (init cfg) k w tr Hp).
    fold (key_events ks). fold (isFuncKey k).
    cbn [paste_text flat_map]. fold (paste_text ks).
    destruct (isFuncKey k).
    + rewrite IH by exact Hp. reflexivity.
    + rewrite IH by exact Hp. cbn. rewrite <- app_assoc. reflexivity.
Qed.

(** X8. In a bracketed paste no key acts as a command: between paste-start
    and paste-end, function keys are dropped and every other key -- Enter
    and Backspace among them -- only adds the encoding of its rune to the
    pasted text, which is inserted at paste-end by one [InsertAtDot] call.
    The submit callback is not called and nothing is deleted. *)
Theorem paste_takes_keys_literally
    (cfg : Config R) (ks : list ui.Key) (w : widget R) (tr : list Op)
    (pre post : bytes) :
  pasting w = false ->
  pasteBuffer w = [] ->
  Buffer (state w) = mkCodeBuffer (pre ++ post) (len pre) ->
  let text := if quotes cfg then Quote (paste_text ks) else paste_text ks in
  dispatchAll cfg
    (term.PasteSetting true :: key_events ks ++ [term.PasteSetting false])
    (mkWorld w tr) =
    Some (tt,
          mkWorld (pasted w pre text post)
                  (tr ++ [OpResetInserts; OpResetInserts; OpInsertAtDot text])).
Proof.
  intros Hp Hpb Hbuf text.
  destruct w as [[c rest] ins last p pb]. cbn in Hp, Hpb, Hbuf. subst p pb c.
  change (term.PasteSetting true :: key_events ks ++ [term.PasteSetting false])
    with ([term.PasteSetting true] ++ key_events ks ++ [term.PasteSetting false]).
  rewrite (dispatchAll_app R Quote Backspace inGraphicRanges). cbn.
  rewrite (dispatchAll_app R Quote Backspace inGraphicRanges).
  rewrite any_keys_while_pasting by reflexivity.
  cbn [codearea.dispatchAll]. unfold bind at 1. cbn [dispatch].
  rewrite (paste_end_run R Quote cfg _ _ pre post) by reflexivity.
  cbn. fold text. unfold pasted. cbn.
  rewrite <- app_assoc. reflexivity.
Qed.

End Typing.

(** ** The order of the abbreviations *)

Section Order.
Import codearea Selection Invariants Coverage.

Lemma suffix_same_length (a a' ins : bytes) :
  is_suffix a ins -> is_suffix a' ins -> len a = len a' -> a = a'.
Proof.
  intros [q Hq] [q' Hq'] Hl.
  assert (Hlen : len q = len q').
  { pose proof (f_equal len Hq) as E. pose proof (f_equal len Hq') as E'.
    rewrite len_app in E, E'. lia. }
  rewrite <- (skipn_len_app q a), <- (skipn_len_app q' a'), <- Hq, <- Hq', Hlen.
  reflexivity.
Qed.

Lemma NoDup_fst_functional (l : list (bytes * bytes)) (a f f' : bytes) :
  NoDup (map fst l) -> In (a, f) l -> In (a, f') l -> f = f'.
Proof.
  induction l as [| [a0 f0] l IH]; intros Hnd H1 H2; [destruct H1 |].
  cbn [map fst] in Hnd. inversion Hnd as [| x xs Hnotin Hnd']. subst.
  destruct H1 as [E1 | H1], H2 as [E2 | H2].
  - congruence.
  - injection E1 as -> ->. exfalso. apply Hnotin.
    apply (in_map fst) in H2. exact H2.
  - injection E2 as -> ->. exfalso. apply Hnotin.
    apply (in_map fst) in H1. exact H1.
  - apply IH; assumption.
Qed.

Lemma selects_longest (b : bool) (l : list (bytes * bytes)) (ins : bytes)
    (p q : bytes * bytes) :
  selects b l ins p -> In q l -> candidate b ins q -> len (fst q) <= len (fst p).
Proof.
  intros (i & _ & _ & Hmax) Hin Hc.
  destruct (In_nth_error l q Hin) as [j Hj].
  apply (Hmax j q Hj Hc).
Qed.

(** When no abbreviation occurs twice, the pair that the visitor keeps
    does not depend on the order of the enumeration. *)
Lemma pick_Permutation (l l' : list (bytes * bytes)) (ins : bytes) :
  Permutation l l' -> NoDup (map fst l) -> pick l ins = pick l' ins.
Proof.
  intros Hperm Hnd.
  destruct (pick_spec ins l) as [[_ Hsel] | [Hnil Hnone]];
    destruct (pick_spec ins l') as [[_ Hsel'] | [Hnil' Hnone']].
  - destruct (selects_candidate_In ins _ _ _ Hsel) as [Hin Hc].
    destruct (selects_candidate_In ins _ _ _ Hsel') as [Hin' Hc'].
    assert (Hin2 : In (pick l' ins) l)
      by (apply (Permutation_in _ (Permutation_sym Hperm)); exact Hin').
    assert (Hin3 : In (pick l ins) l')
      by (apply (Permutation_in _ Hperm); exact Hin).
    pose proof (selects_longest _ _ _ _ _ Hsel Hin2 Hc') as H1.
    pose proof (selects_longest _ _ _ _ _ Hsel' Hin3 Hc) as H2.
    destruct (pick l ins) as [a f], (pick l' ins) as [a' f'].
    cbn [fst] in *.
    assert (a = a')
      by (apply (suffix_same_length a a' ins); [apply Hc | apply Hc' | lia]).
    subst a'. f_equal. exact (NoDup_fst_functional l a f f' Hnd Hin Hin2).
  - exfalso. destruct (selects_candidate_In ins _ _ _ Hsel) as [Hin Hc].
    apply (Hnone' (pick l ins)); [| exact Hc].
    apply (Permutation_in _ Hperm). exact Hin.
  - exfalso. destruct (selects_candidate_In ins _ _ _ Hsel') as [Hin' Hc'].
    apply (Hnone (pick l' ins)); [| exact Hc'].
    apply (Permutation_in _ (Permutation_sym Hperm)). exact Hin'.
  - congruence.
Qed.

Variable R : Type.
Variable Backspace : Z.
Variable inGraphicRanges : Z -> bool.

Local Abbreviation handleKeyEvent := (handleKeyEvent R Backspace inGraphicRanges).

(** Two computations that start alike and continue alike are equal. *)
Lemma bind_ext {A B : Type} (m : M R A) (k k' : A -> M R B) (W : World R) :
  (forall a W1, m W = Some (a, W1) -> k a W1 = k' a W1) ->
  bind R m k W = bind R m k' W.
Proof.
  intros H. unfold bind. destruct (m W) as [[a W1] |]; [| reflexivity].
  apply H. reflexivity.
Qed.

(** X9. When no abbreviation occurs twice in the enumeration, as with the
    keys of a map, the order in which the enumerator visits the pairs does
    not matter: two configurations whose enumerations are permutations of
    each other handle every key alike, in every state. *)
Theorem enumeration_order_is_irrelevant
    (cfg cfg' : Config R) (key : ui.Key) (W : World R) :
  Permutation (abbreviations cfg) (abbreviations cfg') ->
  NoDup (map fst (abbreviations cfg)) ->
  handleKeyEvent (init cfg) key W = handleKeyEvent (init cfg') key W.
Proof.
  intros Hperm Hnd.
  unfold codearea.handleKeyEvent. cbv zeta.
  apply bind_ext. intros w W0 _.
  destruct (pasting w); [reflexivity |].
  destruct (ui.Key_eqb key (ui.K 10)); [reflexivity |].
  destruct (ui.Key_eqb key (ui.K Backspace)); [reflexivity |].
  destruct (negb (ui.Mod key =? 0) || (ui.Rune key <? 0)
            || negb (unicode.IsGraphic inGraphicRanges (ui.Rune key)));
    [reflexivity |].
  do 6 (apply bind_ext; intros ? ? _).
  change (Abbreviations (init cfg)) with (Some (abbreviations cfg)).
  change (Abbreviations (init cfg')) with (Some (abbreviations cfg')).
  cbn [call]. unfold bind at 1. unfold bind at 4. unfold ret at 1. unfold ret at 3.
  rewrite (pick_Permutation _ _ _ Hperm Hnd). reflexivity.
Qed.

End Order.

(** ** Interruptions, unhandled events and the overlay *)

Section Interruptions.
Import codearea Selection Invariants Coverage.

Variable R : Type.
Variable Quote : bytes -> bytes.
Variable Backspace : Z.
Variable inGraphicRanges : Z -> bool.

Local Abbreviation handleKeyEvent := (handleKeyEvent R Backspace inGraphicRanges).
Local Abbreviation Handle := (Handle R Quote Backspace inGraphicRanges).
Local Abbreviation IsGraphic := (unicode.IsGraphic inGraphicRanges).

Lemma CodeBuffer_eqb_neq (a b : CodeBuffer) :
  a <> b -> CodeBuffer_eqb a b = false.
Proof.
  intros H. destruct (CodeBuffer_eqb a b) eqn:E; [| reflexivity].
  apply CodeBuffer_eqb_eq in E. contradiction.
Qed.


Lemma bind_not_false {A : Type} (m : M R A) (k : A -> M R bool)
    (W W' : World R) :
  (forall a W1 W2, k a W1 <> Some (false, W2)) ->
  bind R m k W <> Some (false, W').
Proof.
  intros H. unfold bind. destruct (m W) as [[a W1] |]; [apply H | discriminate].
Qed.

Lemma ret_true_not_false (W1 W2 : World R) :
  ret R true W1 <> Some (false, W2).
Proof. unfold ret. intros [=]. Qed.

(** X11. [Handle] reports an event as not handled only when nothing has
    acted on the buffer: the overlay declined it, the event is no paste
    event, and if it is a key, the widget is not in a paste and the key is
    neither Enter nor Backspace but a function key or a rune that is not
    graphic. The state is then the one the overlay left, the pasting flag
    and the paste buffer are untouched, and the submit callback has not
    been called. *)
Theorem unhandled_event_leaves_state
    (cfg : Config R) (e : term.Event) (w : widget R) (tr : list Op)
    (W' : World R) :
  Handle cfg e (mkWorld w tr) = Some (false, W') ->
  overlay_of cfg e (state w) = Some (false, state (self W'))
  /\ (forall start, e <> term.PasteSetting start)
  /\ (forall key, e = term.KeyEvent key ->
        pasting w = false
        /\ key <> ui.K 10
        /\ key <> ui.K Backspace
        /\ (isFuncKey key = true \/ IsGraphic (ui.Rune key) = false))
  /\ pasting (self W') = pasting w
  /\ pasteBuffer (self W') = pasteBuffer w
  /\ submissions (trace W') = submissions tr.
Proof.
  rewrite (Handle_unfold R Quote Backspace inGraphicRanges).
  destruct (overlay_of cfg e (state w)) as [[[|] s] |] eqn:Eo;
    [discriminate | | discriminate].
  intros Hrun.
  destruct e as [key | start |]; cbn [codearea.dispatch] in Hrun.
  - (* a key *)
    unfold codearea.handleKeyEvent in Hrun. unfold bind at 1 in Hrun.
    unfold get at 1 in Hrun. cbn [self set_state pasting] in Hrun.
    destruct (pasting w) eqn:Hp.
    { exfalso. revert Hrun. apply bind_not_false. intros.
      apply ret_true_not_false. }
    destruct (ui.Key_eqb key (ui.K 10)) eqn:Ek.
    { exfalso. revert Hrun. apply bind_not_false. intros.
      apply bind_not_false. intros. apply ret_true_not_false. }
    destruct (ui.Key_eqb key (ui.K Backspace)) eqn:Eb.
    { exfalso. revert Hrun. apply bind_not_false. intros.
      apply bind_not_false. intros. apply ret_true_not_false. }
    destruct (negb (ui.Mod key =? 0) || (ui.Rune key <? 0)
              || negb (IsGraphic (ui.Rune key))) eqn:Eu.
    + cbn in Hrun. injection Hrun as <-. cbn.
      split; [reflexivity |]. split; [discriminate |].
      split.
      { intros k [= <-]. split; [reflexivity |].
        split; [intros E; apply Key_eqb_eq in E; congruence |].
        split; [intros E; apply Key_eqb_eq in E; congruence |].
        unfold isFuncKey. apply orb_true_iff in Eu as [Eu | Eu];
          [left; exact Eu | right; apply negb_true_iff; exact Eu]. }
      split; [exact Hp |]. split; [reflexivity |].
      unfold submissions. rewrite flat_map_app. cbn. apply app_nil_r.
    + exfalso. revert Hrun. cbv zeta.
      do 6 (apply bind_not_false; intros).
      apply bind_not_false. intros abbrs ? ?.
      destruct (pick abbrs _) as [abbr full].
      apply bind_not_false. intros. apply ret_true_not_false.
  - (* a paste event *)
    exfalso. revert Hrun. unfold codearea.handlePasteSetting.
    do 2 (apply bind_not_false; intros). apply ret_true_not_false.
  - (* any other event *)
    cbn in Hrun. injection Hrun as <-. cbn.
    split; [reflexivity |]. split; [discriminate |].
    split; [discriminate |]. repeat split.
Qed.

(** X12. When the overlay handler of the configuration handles an event,
    [Handle] reports it handled and the widget's own logic does not run:
    the state is the one the overlay left, the insertion tracking, the
    pasting flag and the paste buffer are untouched, and neither
    [resetInserts] nor [InsertAtDot] nor the submit callback is called.
    So, unlike a function key that the widget sees, an event handled by the
    overlay does not interrupt a run of insertions if the overlay leaves
    the buffer alone: the next graphic key continues the same tracked
    text. *)
Theorem overlay_handled_skips_own_logic
    (cfg : Config R) (e : term.Event) (w : widget R) (tr : list Op)
    (s : State R) :
  overlay_of cfg e (state w) = Some (true, s) ->
  let w' := mkWidget s (inserts w) (lastCodeBuffer w) (pasting w)
                     (pasteBuffer w) in
  Handle cfg e (mkWorld w tr) = Some (true, mkWorld w' tr)
  /\ (Buffer s = Buffer (state w) -> tracked w' = tracked w)
  /\ (Buffer s <> Buffer (state w) ->
      lastCodeBuffer w = Buffer (state w) -> tracked w' = []).
Proof.
  intros Ho w'. split; [| split].
  - rewrite (Handle_unfold R Quote Backspace inGraphicRanges), Ho. reflexivity.
  - intros Hb. unfold tracked, w'. cbn [lastCodeBuffer state inserts].
    rewrite Hb. reflexivity.
  - intros Hb Hl. unfold tracked, w'. cbn [lastCodeBuffer state inserts].
    rewrite CodeBuffer_eqb_neq; [reflexivity | congruence].
Qed.

(** X13. [init] only fills the members that are nil: applying it again
    changes nothing, the configured abbreviations and quoting are kept,
    and a configuration behaves under [Handle] as its initialised form. *)
Theorem init_is_idempotent (cfg : Config R) :
  init (init cfg) = init cfg
  /\ abbreviations (init cfg) = abbreviations cfg
  /\ quotes (init cfg) = quotes cfg
  /\ (forall e s, overlay_of (init cfg) e s = overlay_of cfg e s)
  /\ (forall e W, Handle (init cfg) e W = Handle cfg e W).
Proof.
  destruct cfg as [[h |] [a |] [q |]]; repeat split.
Qed.

End Interruptions.

(** ** Stacked overlays *)

Section StackedOverlays.
Import clitypes.

Variable World : Type.
Variable Buffer : Type.

(** X14. Overlays stack in the order in which they are added, the last one
    added being asked first, and stacking is associative: adding [v] and
    then [h] over a widget [w] handles every event as adding over [w] the
    one overlay made of [v] with [h] over it -- [h] first, then [v], then
    [w], each one only if the ones before reported the event not handled,
    and on the world they left; a panic of any of them ends the call. Both
    composites render as [w]. *)
Theorem stacked_overlays_are_associative
    (W V H : Type) (IW : Widget World Buffer W) (IV : Widget World Buffer V)
    (IH : Handler World H)
    (w : W) (v : V) (h : H) (event : term.Event) (width height : Z)
    (world : World) :
  Handle World
    (AddOverlayHandler World Buffer (AddOverlayHandler World Buffer w v) h)
    event world =
  Handle World
    (AddOverlayHandler World Buffer w (AddOverlayHandler World Buffer v h))
    event world
  /\ Handle World
       (AddOverlayHandler World Buffer (AddOverlayHandler World Buffer w v) h)
       event world =
     match Handle World h event world with
     | Some (true, w1) => Some (true, w1)
     | Some (false, w1) =>
         match Handle World v event w1 with
         | Some (true, w2) => Some (true, w2)
         | Some (false, w2) => Handle World w event w2
         | None => None
         end
     | None => None
     end
  /\ Render World Buffer
       (AddOverlayHandler World Buffer (AddOverlayHandler World Buffer w v) h)
       width height world =
     Render World Buffer w width height world
  /\ Render World Buffer
       (AddOverlayHandler World Buffer w (AddOverlayHandler World Buffer v h))
       width height world =
     Render World Buffer w width height world.
Proof.
  split; [| split; [| split]]; try reflexivity.
  cbv [Handle Widget_Handler overlay_Widget overlay_Handle
       AddOverlayHandler overlay base].
  destruct IW as [rw hw], IV as [rv hv]. cbn.
  destruct (IH h event world) as [[[|] w1] |]; reflexivity.
Qed.

End StackedOverlays.

(** ** An abbreviation typed key by key *)

Section TypedAbbreviation.
Import codearea Selection Invariants Coverage.

Variable R : Type.
Variable Quote : bytes -> bytes.
Variable Backspace : Z.
Variable inGraphicRanges : Z -> bool.

Local Abbreviation handleKeyEvent := (handleKeyEvent R Backspace inGraphicRanges).
Local Abbreviation dispatchAll := (dispatchAll R Quote Backspace inGraphicRanges).
Local Abbreviation HandleAll := (HandleAll R Quote Backspace inGraphicRanges).
Local Abbreviation IsGraphic := (unicode.IsGraphic inGraphicRanges).

Lemma CodeBuffer_eqb_refl (c : CodeBuffer) : CodeBuffer_eqb c c = true.
Proof. apply CodeBuffer_eqb_eq. reflexivity. Qed.

Lemma tracked_typed (w : widget R) (pre s post ins : bytes) :
  tracked (typed w pre s post ins) = ins.
Proof.
  unfold tracked, typed. cbn [lastCodeBuffer state Buffer inserts].
  rewrite CodeBuffer_eqb_refl. reflexivity.
Qed.

Lemma is_suffix_len (a s : bytes) : is_suffix a s -> len a <= len s.
Proof. intros [q ->]. rewrite len_app. pose proof (len_nonneg q). lia. Qed.

(** Keys whose encodings, with what was tracked, stay shorter than the one
    abbreviation are only inserted, and tracked. *)
Lemma typing_below_abbreviation (cfg : Config R) (a full : bytes) (rs : list Z) :
  abbreviations cfg = [(a, full)] ->
  Forall (fun r => 0 <= r /\ IsGraphic r = true /\ r <> Backspace) rs ->
  forall (w : widget R) (tr : list Op) (pre post : bytes),
    pasting w = false ->
    Buffer (state w) = mkCodeBuffer (pre ++ post) (len pre) ->
    len (tracked w) + len (concat (map utf8.EncodeRune rs)) < len a ->
    exists w' tr',
      dispatchAll cfg (keys rs) (mkWorld w tr) = Some (tt, mkWorld w' tr')
      /\ Buffer (state w') =
           mkCodeBuffer ((pre ++ concat (map utf8.EncodeRune rs)) ++ post)
                        (len (pre ++ concat (map utf8.EncodeRune rs)))
      /\ Rest (state w') = Rest (state w)
      /\ pasting w' = false
      /\ pasteBuffer w' = pasteBuffer w
      /\ tracked w' = tracked w ++ concat (map utf8.EncodeRune rs).
Proof.
  intros Habbr Hrs. induction Hrs as [| r rs (Hr & Hg & Hb) _ IH];
    intros w tr pre post Hp Hbuf Hlen.
  - exists w, tr. cbn [keys map concat codearea.dispatchAll].
    rewrite !app_nil_r. auto 6.
  - cbn [map concat] in Hlen |- *. set (s := utf8.EncodeRune r) in *.
    set (text := concat (map utf8.EncodeRune rs)) in *.
    rewrite len_app in Hlen.
    assert (Hnone : no_candidate true (abbreviations cfg) (tracked w ++ s)).
    { rewrite Habbr. intros q [<- | []] [Hsuf _]. cbn [fst] in Hsuf.
      apply is_suffix_len in Hsuf. rewrite len_app in Hsuf.
      pose proof (len_nonneg text). lia. }
    pose proof (graphic_key_inserts R Backspace inGraphicRanges cfg (ui.K r) w tr
                  pre post Hp eq_refl Hr Hg Hb Hbuf Hnone) as Hrun.
    cbn [ui.K ui.Rune] in Hrun. fold s in Hrun.
    match type of Hrun with
    | _ = Some (_, mkWorld _ ?t) =>
        destruct (IH (typed w pre s post (tracked w ++ s)) t (pre ++ s) post Hp)
          as (w' & tr' & Hrun' & Hbuf' & Hrest' & Hp' & Hpb' & Htr')
    end.
    { cbn [typed state Buffer]. rewrite <- app_assoc, len_app. reflexivity. }
    { rewrite tracked_typed, len_app. fold text. lia. }
    exists w', tr'. split.
    { cbn [keys map codearea.dispatchAll dispatch]. unfold bind at 1.
      unfold tracked in Hrun. rewrite Hrun. exact Hrun'. }
    split; [rewrite Hbuf'; fold text; rewrite <- !app_assoc; reflexivity |].
    split; [exact Hrest' |]. split; [exact Hp' |]. split; [exact Hpb' |].
    rewrite Htr', tracked_typed, <- app_assoc. reflexivity.
Qed.

Lemma selects_single (a full : bytes) :
  a <> [] -> selects true [(a, full)] a (a, full).
Proof.
  intros Ha. exists 0%nat. split; [reflexivity |]. split.
  - split; [exists []; reflexivity | intros _; exact Ha].
  - intros j q Hj _. destruct j as [| j].
    + injection Hj as <-. split; [lia | intros H; inversion H].
    + destruct j; discriminate Hj.
Qed.

(** X15. An abbreviation typed key by key is replaced by its expansion when
    its last key arrives: with one abbreviation configured and no overlay,
    in the normal state and with no insertion to continue, typing graphic
    keys whose encodings make up the abbreviation leaves the expansion
    where the abbreviation would stand, the dot after it, the text around
    unchanged and insertion tracking reset. *)
Theorem typed_abbreviation_is_expanded
    (cfg : Config R) (a full : bytes) (rs : list Z) (w : widget R)
    (tr : list Op) (pre post : bytes) :
  OverlayHandler cfg = None ->
  abbreviations cfg = [(a, full)] ->
  rs <> [] ->
  a = concat (map utf8.EncodeRune rs) ->
  Forall (fun r => 0 <= r /\ IsGraphic r = true /\ r <> Backspace) rs ->
  pasting w = false ->
  tracked w = [] ->
  Buffer (state w) = mkCodeBuffer (pre ++ post) (len pre) ->
  exists tr',
    HandleAll cfg (keys rs) (mkWorld w tr) =
      Some (tt, mkWorld (expanded w pre full post) tr').
Proof.
  intros Ho Habbr Hne Ha Hrs Hp Ht Hbuf.
  destruct (exists_last Hne) as (rs0 & r & ->).
  apply Forall_app in Hrs as [Hrs0 Hr].
  inversion Hr as [| r' l' (Hr0 & Hg & Hb) _]; subst r' l'.
  rewrite map_app, concat_app in Ha. cbn [map concat] in Ha.
  rewrite app_nil_r in Ha.
  set (text := concat (map utf8.EncodeRune rs0)) in *.
  set (s := utf8.EncodeRune r) in *.
  pose proof (valid_char_len _ (EncodeRune_valid r)) as Hs. fold s in Hs.
  pose proof (len_nonneg text) as Htext.
  assert (Hla : len a = len text + len s) by (rewrite Ha; apply len_app).
  destruct (typing_below_abbreviation cfg a full rs0 Habbr Hrs0
              w tr pre post Hp Hbuf)
    as (w' & tr' & Hrun' & Hbuf' & Hrest' & Hp' & Hpb' & Htr').
  { rewrite Ht. fold text. unfold len at 1. cbn. lia. }
  fold text in Hbuf', Htr'. rewrite Ht in Htr'. cbn [app] in Htr'.
  assert (Hsel : selects true (abbreviations cfg) (tracked w' ++ s) (a, full)).
  { rewrite Habbr, Htr', <- Ha. apply selects_single.
    intros E. rewrite E in Hla. unfold len at 1 in Hla. cbn in Hla. lia. }
  destruct (pick_selected _ _ _ Hsel) as [Hpick Hpos]. cbn [fst] in Hpos.
  pose proof (graphic_key_run R Backspace inGraphicRanges cfg (ui.K r) w' tr'
                (pre ++ text) post Hp' eq_refl Hr0 Hg Hb Hbuf') as Hrun.
  cbv zeta in Hrun. cbn [ui.K ui.Rune] in Hrun. fold s in Hrun.
  set (p := pick (abbreviations cfg) _) in Hrun.
  assert (Hp0 : p = (a, full)) by exact Hpick.
  clearbody p. subst p. cbn [fst snd] in Hrun.
  replace (0 <? len a) with true in Hrun
    by (symmetry; apply Z.ltb_lt; exact Hpos).
  replace ((pre ++ text) ++ s ++ post) with (pre ++ a ++ post) in Hrun
    by (rewrite Ha, <- !app_assoc; reflexivity).
  replace (len (pre ++ text) + len s) with (len pre + len a) in Hrun
    by (rewrite !len_app; lia).
  rewrite expand_app, Hrest', Hp', Hpb', <- Hp in Hrun.
  rewrite (HandleAll_without_overlay R Quote Backspace inGraphicRanges cfg _ _ Ho).
  unfold keys. rewrite map_app.
  rewrite (dispatchAll_app R Quote Backspace inGraphicRanges).
  fold (keys rs0). rewrite Hrun'. cbn [map codearea.dispatchAll dispatch].
  unfold bind at 1. rewrite Hrun. cbn [ret]. eexists. reflexivity.
Qed.

End TypedAbbreviation.

(** ** Concrete runs of the further properties *)

Section ConcreteRuns.
Import codearea Selection Invariants Coverage Examples Runs.

Lemma Backspace_not_enter : Backspace <> 10.
Proof. vm_compute. discriminate. Qed.

Lemma in_range_cafe : in_range (mkCodeBuffer (str "café") 5).
Proof. vm_compute. split; discriminate. Qed.

Lemma in_range_empty : in_range (mkCodeBuffer [] 0).
Proof. vm_compute. split; discriminate. Qed.

Lemma Safe_w_cafe : Safe w_cafe.
Proof. apply Safe_NewWithState. exact in_range_cafe. Qed.

Lemma Safe_w_fresh : Safe w_fresh.
Proof. apply Safe_NewWithState. exact in_range_empty. Qed.

Lemma plain_overlay_total : overlay_total (overlay_of plain_cfg).
Proof. intros e s. exists false, s. reflexivity. Qed.

Lemma plain_overlay_keeps_range : overlay_keeps_range (overlay_of plain_cfg).
Proof. intros e s b s' Hr [= _ <-]. exact Hr. Qed.

Lemma graphic_c_a :
  Forall (fun r => 0 <= r /\ unicode.IsGraphic noRanges r = true /\ r <> Backspace)
         [99; 97].
Proof.
  repeat constructor; try (vm_compute; discriminate).
Qed.

Lemma abbr_cfg_swapped :
  Permutation (abbreviations abbr_cfg)
    (abbreviations
       swapped_cfg).
Proof. apply perm_swap. Qed.

Lemma abbr_cfg_NoDup : NoDup (map fst (abbreviations abbr_cfg)).
Proof.
  repeat constructor.
  - intros [H | []]. discriminate H.
  - intros [].
Qed.

(** X1 at a concrete input: Backspace after [café]. *)
Lemma backspace_cuts_one_to_four_bytes_witness :
  Backspace <> 10 /\
  pasting w_cafe = false /\
  Buffer (state w_cafe) = mkCodeBuffer (str "café" ++ []) (len (str "café")) /\
  exists keep cut,
    str "café" = keep ++ cut /\
    len cut <= 4 /\
    (str "café" <> [] -> 1 <= len cut) /\
    (str "café" = [] -> cut = []) /\
    handleKeyEvent unit Backspace noRanges plain_cfg (ui.K Backspace)
        (mkWorld w_cafe []) =
      Some (true,
            mkWorld (set_buffer (mkCodeBuffer (keep ++ []) (len keep))
                                (reset w_cafe))
                    ([] ++ [OpResetInserts])).
Proof.
  refine (conj Backspace_not_enter (conj eq_refl (conj eq_refl _))).
  exact (backspace_cuts_one_to_four_bytes unit Backspace noRanges plain_cfg
           w_cafe [] (str "café") [] Backspace_not_enter eq_refl eq_refl).
Defined.

(** X2 at a concrete input: [x] and Backspace after [café]. *)
Lemma type_then_backspace_restores_buffer_witness :
  Backspace <> 10 /\
  pasting w_cafe = false /\
  0 <= 120 /\
  unicode.IsGraphic noRanges 120 = true /\
  120 <> Backspace /\
  Buffer (state w_cafe) = mkCodeBuffer (str "café" ++ []) (len (str "café")) /\
  no_candidate true (abbreviations plain_cfg)
    ((if CodeBuffer_eqb (lastCodeBuffer w_cafe) (Buffer (state w_cafe))
      then inserts w_cafe else []) ++ utf8.EncodeRune 120) /\
  exists tr',
    dispatchAll unit quote1 Backspace noRanges plain_cfg (keys [120; Backspace])
        (mkWorld w_cafe []) =
      Some (tt, mkWorld (reset w_cafe) tr').
Proof.
  assert (H0 : 0 <= 120) by (vm_compute; discriminate).
  assert (Hn : 120 <> Backspace) by (vm_compute; discriminate).
  refine (conj Backspace_not_enter (conj eq_refl (conj H0 (conj eq_refl
            (conj Hn (conj eq_refl (conj (no_candidate_nil true _) _))))))).
  exact (type_then_backspace_restores_buffer unit quote1 Backspace noRanges
           plain_cfg 120 w_cafe [] (str "café") [] Backspace_not_enter eq_refl
           H0 eq_refl Hn eq_refl (no_candidate_nil true _)).
Defined.

(** X3 at a concrete input: a key, a paste and an Enter after [café], with
    abbreviations. *)
Lemma own_handling_edits_before_dot_only_witness :
  Safe w_cafe /\
  exists W',
    dispatchAll unit quote1 Backspace noRanges abbr_cfg
        (term.KeyEvent (ui.K 120) :: paste_events [104] ++ keys [10])
        (mkWorld w_cafe []) = Some (tt, W')
    /\ in_range (Buffer (state (self W')))
    /\ after_dot (Buffer (state (self W'))) = after_dot (Buffer (state w_cafe))
    /\ Rest (state (self W')) = Rest (state w_cafe).
Proof.
  refine (conj Safe_w_cafe _).
  exact (own_handling_edits_before_dot_only unit quote1 Backspace noRanges
           abbr_cfg (term.KeyEvent (ui.K 120) :: paste_events [104] ++ keys [10])
           w_cafe [] Safe_w_cafe).
Defined.

(** X4 at a concrete input: a paste that has started and not ended. *)
Lemma pasting_flag_follows_last_paste_event_witness :
  Safe w_fresh /\
  exists W',
    dispatchAll unit quote1 Backspace noRanges plain_cfg
        [term.PasteSetting true; term.PasteSetting false;
         term.PasteSetting true; term.KeyEvent (ui.K 104)]
        (mkWorld w_fresh []) = Some (tt, W')
    /\ pasting (self W') =
         last_pasting [term.PasteSetting true; term.PasteSetting false;
                       term.PasteSetting true; term.KeyEvent (ui.K 104)]
                      (pasting w_fresh)
    /\ (pasting (self W') = false -> pasteBuffer (self W') = [])
    /\ ValidString (pasteBuffer (self W')).
Proof.
  refine (conj Safe_w_fresh _).
  exact (pasting_flag_follows_last_paste_event unit quote1 Backspace noRanges
           plain_cfg _ w_fresh [] Safe_w_fresh).
Defined.

(** X5 at a concrete input: an Enter, an Enter within a paste, an Enter. *)
Lemma submit_called_once_per_enter_outside_paste_witness :
  Safe w_fresh /\
  exists w' t,
    dispatchAll unit quote1 Backspace noRanges plain_cfg
        (keys [10] ++ paste_events [10] ++ keys [10])
        (mkWorld w_fresh []) = Some (tt, mkWorld w' ([] ++ t))
    /\ List.length (submissions t) =
         count_submits (keys [10] ++ paste_events [10] ++ keys [10])
                       (pasting w_fresh).
Proof.
  refine (conj Safe_w_fresh _).
  exact (submit_called_once_per_enter_outside_paste unit quote1 Backspace
           noRanges plain_cfg _ w_fresh [] Safe_w_fresh).
Defined.

(** X6 at a concrete input: keys and a paste on [café]. *)
Lemma Handle_never_panics_witness :
  in_range (Buffer (mkState (mkCodeBuffer (str "café") 5) tt)) /\
  overlay_total (overlay_of plain_cfg) /\
  overlay_keeps_range (overlay_of plain_cfg) /\
  exists W',
    HandleAll unit quote1 Backspace noRanges plain_cfg
        (keys [Backspace; Backspace; 120] ++ paste_events [104])
        (mkWorld (NewWithState (mkState (mkCodeBuffer (str "café") 5) tt)) [])
      = Some (tt, W')
    /\ in_range (Buffer (state (self W')))
    /\ track_ok (self W').
Proof.
  refine (conj in_range_cafe (conj plain_overlay_total
            (conj plain_overlay_keeps_range _))).
  exact (Handle_never_panics unit quote1 Backspace noRanges plain_cfg
           (mkState (mkCodeBuffer (str "café") 5) tt) []
           (keys [Backspace; Backspace; 120] ++ paste_events [104])
           in_range_cafe plain_overlay_total plain_overlay_keeps_range).
Defined.

(** X7 at a concrete input: [c] and [a] typed into the empty buffer. *)
Lemma typing_inserts_encodings_in_order_witness :
  OverlayHandler plain_cfg = None /\
  abbreviations plain_cfg = [] /\
  Forall (fun r => 0 <= r /\ unicode.IsGraphic noRanges r = true /\ r <> Backspace)
         [99; 97] /\
  pasting w_fresh = false /\
  Buffer (state w_fresh) = mkCodeBuffer ([] ++ []) (len []) /\
  exists W',
    HandleAll unit quote1 Backspace noRanges plain_cfg (keys [99; 97])
        (mkWorld w_fresh []) = Some (tt, W')
    /\ Buffer (state (self W')) =
         mkCodeBuffer ([] ++ concat (map utf8.EncodeRune [99; 97]) ++ [])
                      (len [] + len (concat (map utf8.EncodeRune [99; 97])))
    /\ Rest (state (self W')) = Rest (state w_fresh).
Proof.
  refine (conj eq_refl (conj eq_refl (conj graphic_c_a (conj eq_refl
            (conj eq_refl _))))).
  exact (typing_inserts_encodings_in_order unit quote1 Backspace noRanges
           plain_cfg [99; 97] w_fresh [] [] [] eq_refl eq_refl graphic_c_a
           eq_refl eq_refl).
Defined.

(** X8 at a concrete input: [h], Enter and the Up key pasted, with
    quoting. *)
Lemma paste_takes_keys_literally_witness :
  pasting w_fresh = false /\
  pasteBuffer w_fresh = [] /\
  Buffer (state w_fresh) = mkCodeBuffer ([] ++ []) (len []) /\
  dispatchAll unit quote1 Backspace noRanges quoting_cfg
    (term.PasteSetting true
       :: key_events [ui.K 104; ui.K 10; ui.mkKey (-1) 0]
       ++ [term.PasteSetting false])
    (mkWorld w_fresh []) =
    Some (tt,
          mkWorld (pasted w_fresh []
                     (quote1 (paste_text [ui.K 104; ui.K 10; ui.mkKey (-1) 0])) [])
                  ([] ++ [OpResetInserts; OpResetInserts;
                          OpInsertAtDot
                            (quote1 (paste_text
                                       [ui.K 104; ui.K 10; ui.mkKey (-1) 0]))])).
Proof.
  refine (conj eq_refl (conj eq_refl (conj eq_refl _))).
  exact (paste_takes_keys_literally unit quote1 Backspace noRanges quoting_cfg
           [ui.K 104; ui.K 10; ui.mkKey (-1) 0] w_fresh [] [] []
           eq_refl eq_refl eq_refl).
Defined.

(** X9 at a concrete input: the two abbreviations of the examples, visited
    in either order, on the key [x] after [e]. *)
Lemma enumeration_order_is_irrelevant_witness :
  Permutation (abbreviations abbr_cfg)
    (abbreviations
       swapped_cfg) /\
  NoDup (map fst (abbreviations abbr_cfg)) /\
  handleKeyEvent unit Backspace noRanges (init abbr_cfg) (ui.K 120)
      (mkWorld w_after_e []) =
    handleKeyEvent unit Backspace noRanges
      (init swapped_cfg)
      (ui.K 120) (mkWorld w_after_e []).
Proof.
  refine (conj abbr_cfg_swapped (conj abbr_cfg_NoDup _)).
  exact (enumeration_order_is_irrelevant unit Backspace noRanges abbr_cfg _
           (ui.K 120) (mkWorld w_after_e []) abbr_cfg_swapped abbr_cfg_NoDup).
Defined.


(** The run of X10, computed: [zx] becomes [zexchange]. *)
Example outside_change_example :
  buffer_of
    (bind unit (MutateCodeAreaState unit set_z)
       (fun _ => bind unit
                   (handleKeyEvent unit Backspace noRanges (init abbr_cfg)
                      (ui.K 120))
                   (fun _ => ret unit tt))
       (mkWorld w_after_e [])) = Some (str "zexchange", 9).
Proof. vm_compute. reflexivity. Qed.

(** X11 at a concrete input: the Up key on [café]. *)
Lemma unhandled_event_leaves_state_witness :
  Handle unit quote1 Backspace noRanges plain_cfg
      (term.KeyEvent (ui.mkKey (-1) 0)) (mkWorld w_cafe []) =
    Some (false, mkWorld w_cafe [OpResetInserts])
  /\ overlay_of plain_cfg (term.KeyEvent (ui.mkKey (-1) 0)) (state w_cafe) =
       Some (false, state w_cafe)
  /\ pasting w_cafe = false
  /\ submissions [OpResetInserts] = submissions [].
Proof.
  pose proof (unhandled_event_leaves_state unit quote1 Backspace noRanges
                plain_cfg (term.KeyEvent (ui.mkKey (-1) 0)) w_cafe []
                (mkWorld w_cafe [OpResetInserts]) eq_refl)
    as (Ho & _ & Hk & _ & _ & Hs).
  refine (conj eq_refl (conj Ho (conj _ Hs))).
  exact (proj1 (Hk _ eq_refl)).
Defined.

(** X12 at a concrete input: an overlay that handles every event, on the
    key [x] after [e]. *)
Lemma overlay_handled_skips_own_logic_witness :
  overlay_of handling_cfg (term.KeyEvent (ui.K 120)) (state w_after_e) =
    Some (true, state w_after_e)
  /\ Handle unit quote1 Backspace noRanges handling_cfg
       (term.KeyEvent (ui.K 120)) (mkWorld w_after_e []) =
     Some (true, mkWorld w_after_e [])
  /\ tracked w_after_e = str "e".
Proof.
  pose proof (overlay_handled_skips_own_logic unit quote1 Backspace noRanges
                handling_cfg (term.KeyEvent (ui.K 120)) w_after_e []
                (state w_after_e) eq_refl) as (Hrun & _ & _).
  refine (conj eq_refl (conj Hrun eq_refl)).
Defined.

Lemma graphic_e_x :
  Forall (fun r => 0 <= r /\ unicode.IsGraphic noRanges r = true /\ r <> Backspace)
         [101; 120].
Proof.
  repeat constructor; try (vm_compute; discriminate).
Qed.

Lemma e_x_not_nil : [101; 120] <> ([] : list Z).
Proof. discriminate. Qed.

(** X15 at a concrete input: [e] and [x] typed into the empty buffer, with
    the abbreviation [ex -> example]. *)
Lemma typed_abbreviation_is_expanded_witness :
  OverlayHandler single_cfg = None /\
  abbreviations single_cfg = [(str "ex", str "example")] /\
  [101; 120] <> ([] : list Z) /\
  str "ex" = concat (map utf8.EncodeRune [101; 120]) /\
  Forall (fun r => 0 <= r /\ unicode.IsGraphic noRanges r = true /\ r <> Backspace)
         [101; 120] /\
  pasting w_fresh = false /\
  tracked w_fresh = [] /\
  Buffer (state w_fresh) = mkCodeBuffer ([] ++ []) (len []) /\
  exists tr',
    HandleAll unit quote1 Backspace noRanges single_cfg (keys [101; 120])
        (mkWorld w_fresh []) =
      Some (tt, mkWorld (expanded w_fresh [] (str "example") []) tr').
Proof.
  refine (conj eq_refl (conj eq_refl (conj e_x_not_nil (conj eq_refl
            (conj graphic_e_x (conj eq_refl (conj eq_refl (conj eq_refl _)))))))).
  exact (typed_abbreviation_is_expanded unit quote1 Backspace noRanges
           single_cfg (str "ex") (str "example") [101; 120] w_fresh [] [] []
           eq_refl eq_refl e_x_not_nil eq_refl graphic_e_x eq_refl eq_refl
           eq_refl).
Defined.

End ConcreteRuns.
